(** * Image-Hoster: a shallow embedding of the Flask application

    The repository holds the same application twice ([app.py] for a local
    run, [api/index.py] for a serverless deployment).  The models, the
    helpers and the request handlers of the two files are textually the
    same, so one embedding serves both.

    Conventions.
    - Python [str] and [bytes] are Rocq strings (sequences of 8-bit
      characters); [None] is [option]'s [None].
    - The tables of the relational store are lists in row order; the upload
      folder is a finite map from file name to contents.
    - A handler is a computation in the monad [M]: it threads the [World]
      and either returns a value or raises.  Effects performed before a
      raise persist, except for the store, whose inserts are atomic.
    - One client is modelled: the world holds its login session and the
      messages flashed to it.
    - The libraries the handlers call (werkzeug, Pillow) are the operations
      of the class [Externals]. *)

From Stdlib Require Import ZArith Ascii.
From stdpp Require Import gmap strings list sorting.

Abbreviation bytes := string.

(** ** Python string helpers used by [allowed_file] *)

Module Py.

(** [c.lower()] on one character; only [A-Z] has a lower-case form among
    8-bit characters below 128, the others are left as they are. *)
Definition lower_char (c : ascii) : ascii :=
  let n := nat_of_ascii c in
  if (65 <=? n)%nat && (n <=? 90)%nat then ascii_of_nat (n + 32) else c.

Fixpoint lower (s : string) : string :=
  match s with
  | EmptyString => EmptyString
  | String c s' => String (lower_char c) (lower s')
  end.

(** ['.' in s] *)
Fixpoint contains (c : ascii) (s : string) : bool :=
  match s with
  | EmptyString => false
  | String d s' => Ascii.eqb c d || contains c s'
  end.

(** [s.rsplit(c, 1)]: one split at the last occurrence of [c]; the whole
    string alone when [c] does not occur. *)
Fixpoint rsplit1_aux (c : ascii) (s : string) : option (string * string) :=
  match s with
  | EmptyString => None
  | String d s' =>
      match rsplit1_aux c s' with
      | Some (h, t) => Some (String d h, t)
      | None => if Ascii.eqb c d then Some (EmptyString, s') else None
      end
  end.

Definition rsplit1 (c : ascii) (s : string) : list string :=
  match rsplit1_aux c s with
  | Some (h, t) => [h; t]
  | None => [s]
  end.

(** Truthiness of a string: empty is false. *)
Definition truthy (s : string) : bool :=
  match s with EmptyString => false | _ => true end.

End Py.

(** ** Configuration *)

Definition ALLOWED_EXTENSIONS : gset string :=
  {[ "png"; "jpg"; "jpeg"; "gif" ]}.

(** [allowed_file]: ['.' in filename and
    filename.rsplit('.', 1)[1].lower() in ALLOWED_EXTENSIONS].  The index
    [1] exists whenever the first conjunct holds. *)
Definition allowed_file (filename : string) : bool :=
  Py.contains "." filename &&
  match Py.rsplit1 "." filename !! 1%nat with
  | Some ext => bool_decide (Py.lower ext ∈ ALLOWED_EXTENSIONS)
  | None => false
  end.

(** ** Data model *)

Module User.
Record t := mk {
  id : nat;
  username : string;
  password_hash : string
}.
End User.

Module ImageModel.
Record t := mk {
  id : nat;
  filename : string;
  thumbnail : option string;
  custom_slug : option string;
  upload_date : Z;
  user_id : nat
}.
End ImageModel.

Module FileStorage.
Record t := mk {
  filename : string;
  stream : bytes
}.
End FileStorage.

#[global] Instance User_eq_dec : EqDecision User.t.
Proof. solve_decision. Defined.

#[global] Instance ImageModel_eq_dec : EqDecision ImageModel.t.
Proof. solve_decision. Defined.

(** ** Requests and responses *)

Inductive method := GET | POST.

(** The request as the handlers read it: the method, [request.form],
    [request.files], and the two ambient readings a handler makes,
    [datetime.utcnow()] (microseconds) and the random salt drawn by
    [generate_password_hash]. *)
Record Request := mkRequest {
  req_method : method;
  form : gmap string string;
  files : gmap string FileStorage.t;
  utcnow : Z;
  entropy : string
}.

Inductive endpoint :=
  | EpIndex
  | EpRegister
  | EpLogin
  | EpUpload
  | EpImageDetail (image_id : nat).

Inductive Response :=
  | RenderIndex (images : list ImageModel.t)
  | RenderTemplate (name : string)
  | RenderDetail (image : ImageModel.t)
  | Redirect (target : endpoint)
  | SendFile (body : bytes)
  | NotFound.

Inductive exn :=
  | IntegrityError
  | AttributeError
  | FileNotFoundError
  | UnidentifiedImageError
  | OSError.

(** ** The world a handler runs in *)

Record World := mkWorld {
  users : list User.t;
  images : list ImageModel.t;
  uploads : gmap string bytes;
  session : option nat;
  flashes : list string;
  stdout : list string
}.

Definition set_users (f : list User.t → list User.t) (w : World) : World :=
  mkWorld (f (users w)) (images w) (uploads w) (session w) (flashes w)
    (stdout w).

Definition set_images (f : list ImageModel.t → list ImageModel.t) (w : World)
  : World :=
  mkWorld (users w) (f (images w)) (uploads w) (session w) (flashes w)
    (stdout w).

Definition set_uploads (f : gmap string bytes → gmap string bytes) (w : World)
  : World :=
  mkWorld (users w) (images w) (f (uploads w)) (session w) (flashes w)
    (stdout w).

Definition set_session (s : option nat) (w : World) : World :=
  mkWorld (users w) (images w) (uploads w) s (flashes w) (stdout w).

Definition add_flash (msg : string) (w : World) : World :=
  mkWorld (users w) (images w) (uploads w) (session w) (flashes w ++ [msg])
    (stdout w).

Definition add_stdout (line : string) (w : World) : World :=
  mkWorld (users w) (images w) (uploads w) (session w) (flashes w)
    (stdout w ++ [line]).

(** ** The handler monad: state and exceptions *)

Inductive outcome (A : Type) :=
  | Returned (a : A)
  | Raised (e : exn).
Arguments Returned {A} a.
Arguments Raised {A} e.

Definition M (A : Type) : Type := World → outcome A * World.

#[global] Instance M_ret : MRet M := λ A a w, (Returned a, w).
#[global] Instance M_bind : MBind M := λ A B f m w,
  match m w with
  | (Returned a, w') => f a w'
  | (Raised e, w') => (Raised e, w')
  end.

Definition raise {A} (e : exn) : M A := λ w, (Raised e, w).
Definition gets {A} (f : World → A) : M A := λ w, (Returned (f w), w).
Definition modify (f : World → World) : M unit := λ w, (Returned (), f w).

(** [try: body except Exception as e: handler] *)
Definition try_except {A} (body : M A) (handler : exn → M A) : M A := λ w,
  match body w with
  | (Returned a, w') => (Returned a, w')
  | (Raised e, w') => handler e w'
  end.

Definition flash (msg : string) : M unit := modify (add_flash msg).
Definition print (line : string) : M unit := modify (add_stdout line).

(** ** External collaborators

    werkzeug's [secure_filename], [generate_password_hash] (its random salt
    made an argument) and [check_password_hash]; Pillow's [Image.open],
    [Image.thumbnail] and [Image.save].  [Image.open] and [Image.thumbnail]
    raise on bytes they cannot decode ([None]); [Image.save] either writes
    the encoded image or raises, leaving at the destination what the
    library left there. *)

Inductive save_result :=
  | Saved (encoded : bytes)
  | SaveFailed (left_behind : option bytes).

Class Externals := {
  secure_filename : string → string;
  generate_password_hash : string → string → string;
  check_password_hash : string → string → bool;
  PIL_image : Type;
  PIL_open : bytes → option PIL_image;
  PIL_thumbnail : PIL_image → nat * nat → option PIL_image;
  PIL_save : PIL_image → string → option bytes → save_result
}.

(** ** The relational store *)

Module Db.

(** The integer primary key of a new row: one more than the largest. *)
Definition next_id (ids : list nat) : nat := S (foldr Nat.max 0%nat ids).

Definition has_username (u : string) (x : User.t) : bool :=
  bool_decide (User.username x = u).

Definition has_slug (s : string) (x : ImageModel.t) : bool :=
  bool_decide (ImageModel.custom_slug x = Some s).

(** [User.query.filter_by(username=username).first()].  A [None]
    argument compares against NULL, which no row holds ([nullable=False]). *)
Definition user_by_username (username : option string) (w : World)
  : option User.t :=
  match username with
  | Some u => List.find (has_username u) (users w)
  | None => None
  end.

(** [User.query.get(user_id)] *)
Definition user_get (uid : nat) (w : World) : option User.t :=
  List.find (λ x, bool_decide (User.id x = uid)) (users w).

(** [ImageModel.query.filter_by(custom_slug=custom_slug).first()] *)
Definition image_by_slug (s : string) (w : World) : option ImageModel.t :=
  List.find (has_slug s) (images w).

(** [ImageModel.query.get(image_id)] *)
Definition image_get (iid : nat) (w : World) : option ImageModel.t :=
  List.find (λ x, bool_decide (ImageModel.id x = iid)) (images w).

(** [db.session.add(User(...)); db.session.commit()].  The insert fails
    on a NULL username and on a username some row already holds. *)
Definition add_user (username : option string) (password_hash : string)
  : M User.t := λ w,
  match username with
  | None => (Raised IntegrityError, w)
  | Some u =>
      if existsb (has_username u) (users w) then (Raised IntegrityError, w)
      else
        let row := User.mk (next_id (User.id <$> users w)) u password_hash in
        (Returned row, set_users (λ l, l ++ [row]) w)
  end.

(** [db.session.add(ImageModel(...)); db.session.commit()].  The insert
    fails on a [custom_slug] value some row already holds; NULL slugs
    never conflict.  [upload_date] takes its default, the current time. *)
Definition add_image (filename : string) (thumbnail : option string)
    (custom_slug : option string) (now : Z) (uploader : User.t)
  : M ImageModel.t := λ w,
  let conflict :=
    match custom_slug with
    | Some s => existsb (has_slug s) (images w)
    | None => false
    end in
  if conflict then (Raised IntegrityError, w)
  else
    let row := ImageModel.mk (next_id (ImageModel.id <$> images w))
                 filename thumbnail custom_slug now (User.id uploader) in
    (Returned row, set_images (λ l, l ++ [row]) w).

(** [ORDER BY upload_date DESC]: [a] may precede [b]. *)
Definition date_desc (a b : ImageModel.t) : Prop :=
  (ImageModel.upload_date b ≤ ImageModel.upload_date a)%Z.

#[global] Instance date_desc_dec a b : Decision (date_desc a b).
Proof. unfold date_desc. apply _. Defined.

(** [ImageModel.query.order_by(ImageModel.upload_date.desc()).all()] *)
Definition images_newest_first (w : World) : list ImageModel.t :=
  merge_sort date_desc (images w).

End Db.

(** ** The application *)

Section App.
Context `{Ext : Externals}.

(** [User.set_password]: the hash of the submitted password; a missing
    form field is [None], on which the hasher raises. *)
Definition set_password (password : option string) (salt : string)
  : M string :=
  match password with
  | Some p => mret (generate_password_hash salt p)
  | None => raise AttributeError
  end.

(** [User.check_password] *)
Definition check_password (user : User.t) (password : option string)
  : M bool :=
  match password with
  | Some p => mret (check_password_hash (User.password_hash user) p)
  | None => raise AttributeError
  end.

(** [flask_login.login_user], [logout_user], [current_user] (through
    [load_user]) and the [login_required] decorator. *)
Definition login_user (user : User.t) : M unit :=
  modify (set_session (Some (User.id user))).

Definition logout_user : M unit := modify (set_session None).

Definition load_user (user_id : nat) (w : World) : option User.t :=
  Db.user_get user_id w.

Definition current_user (w : World) : option User.t :=
  match session w with
  | Some uid => load_user uid w
  | None => None
  end.

Definition login_required (view : User.t → M Response) : M Response :=
  cu ← gets current_user;
  match cu with
  | Some user => view user
  | None =>
      flash "Please log in to access this page.";;
      mret (Redirect EpLogin)
  end.

(** [file.save(os.path.join(UPLOAD_FOLDER, filename))]: creates or
    replaces the file of that name. *)
Definition file_save (file : FileStorage.t) (filename : string) : M unit :=
  modify (set_uploads (insert filename (FileStorage.stream file))).

Definition Image_open (image_path : string) : M PIL_image :=
  src ← gets (λ w, uploads w !! image_path);
  match src with
  | None => raise FileNotFoundError
  | Some b =>
      match PIL_open b with
      | Some img => mret img
      | None => raise UnidentifiedImageError
      end
  end.

Definition Image_thumbnail (img : PIL_image) (size : nat * nat)
  : M PIL_image :=
  match PIL_thumbnail img size with
  | Some img' => mret img'
  | None => raise OSError
  end.

Definition Image_save (img : PIL_image) (thumbnail_path : string)
  : M unit :=
  old ← gets (λ w, uploads w !! thumbnail_path);
  match PIL_save img thumbnail_path old with
  | Saved b => modify (set_uploads (insert thumbnail_path b))
  | SaveFailed residue =>
      modify (set_uploads (partial_alter (λ _, residue) thumbnail_path));;
      raise OSError
  end.

(** [create_thumbnail]: every exception of the body is caught and
    reported on standard output; nothing is returned either way. *)
Definition create_thumbnail (image_path thumbnail_path : string) : M unit :=
  try_except
    (img ← Image_open image_path;
     img ← Image_thumbnail img (128, 128)%nat;
     Image_save img thumbnail_path)
    (λ e, print "Error creating thumbnail:").

(** [send_from_directory(UPLOAD_FOLDER, filename)] *)
Definition send_from_directory (filename : string) : M Response :=
  f ← gets (λ w, uploads w !! filename);
  match f with
  | Some b => mret (SendFile b)
  | None => mret NotFound
  end.

(** *** Routes *)

(** [GET /] *)
Definition index : M Response :=
  images ← gets Db.images_newest_first;
  mret (RenderIndex images).

(** [GET, POST /register] *)
Definition register (request : Request) : M Response :=
  match req_method request with
  | POST =>
      let username := form request !! "username" in
      let password := form request !! "password" in
      existing ← gets (Db.user_by_username username);
      match existing with
      | Some _ =>
          flash "Username already exists!";;
          mret (Redirect EpRegister)
      | None =>
          password_hash ← set_password password (entropy request);
          Db.add_user username password_hash;;
          flash "Registration successful! Please login.";;
          mret (Redirect EpLogin)
      end
  | GET => mret (RenderTemplate "register.html")
  end.

(** [GET, POST /login] *)
Definition login (request : Request) : M Response :=
  match req_method request with
  | POST =>
      let username := form request !! "username" in
      let password := form request !! "password" in
      found ← gets (Db.user_by_username username);
      match found with
      | Some user =>
          ok ← check_password user password;
          if (ok : bool) then
            login_user user;;
            mret (Redirect EpIndex)
          else
            flash "Invalid username or password";;
            mret (Redirect EpLogin)
      | None =>
          flash "Invalid username or password";;
          mret (Redirect EpLogin)
      end
  | GET => mret (RenderTemplate "login.html")
  end.

(** [GET /logout] *)
Definition logout : M Response :=
  login_required (λ _,
    logout_user;;
    mret (Redirect EpIndex)).

(** [GET, POST /upload].  [current_user] is the user the decorator
    admitted.  A request that passes none of the three tests on the file
    part falls through to the form. *)
Definition upload (request : Request) : M Response :=
  login_required (λ current_user,
    match req_method request with
    | POST =>
        match files request !! "image" with
        | None =>
            flash "No file part";;
            mret (Redirect EpUpload)
        | Some file =>
            if bool_decide (FileStorage.filename file = "") then
              flash "No selected file";;
              mret (Redirect EpUpload)
            else if Py.truthy (FileStorage.filename file)
                    && allowed_file (FileStorage.filename file) then
              let filename := secure_filename (FileStorage.filename file) in
              file_save file filename;;
              let thumbnail_filename := "thumb_" +:+ filename in
              create_thumbnail filename thumbnail_filename;;
              let custom_slug := form request !! "custom_slug" in
              in_use ← gets (λ w,
                match custom_slug with
                | Some s =>
                    if Py.truthy s then
                      bool_decide (is_Some (Db.image_by_slug s w))
                    else false
                | None => false
                end);
              if (in_use : bool) then
                flash "Custom link already in use. Please choose another.";;
                mret (Redirect EpUpload)
              else
                new_image ← Db.add_image filename (Some thumbnail_filename)
                              custom_slug (utcnow request) current_user;
                flash "Image uploaded successfully!";;
                mret (Redirect (EpImageDetail (ImageModel.id new_image)))
            else mret (RenderTemplate "upload.html")
        end
    | GET => mret (RenderTemplate "upload.html")
    end).

(** [GET /i/<custom_slug>] *)
Definition image_by_slug (custom_slug : string) : M Response :=
  found ← gets (Db.image_by_slug custom_slug);
  match found with
  | Some image => send_from_directory (ImageModel.filename image)
  | None => mret NotFound
  end.

(** [GET /uploads/<filename>] *)
Definition uploaded_file (filename : string) : M Response :=
  send_from_directory filename.

(** [GET /image/<image_id>] *)
Definition image_detail (image_id : nat) : M Response :=
  found ← gets (Db.image_get image_id);
  match found with
  | Some image => mret (RenderDetail image)
  | None => mret NotFound
  end.

End App.

(** ** A sample of the collaborators, to run the handlers on inputs

    [secure_filename] follows werkzeug on POSIX for 8-bit input: characters
    above 127 are dropped, ['/'] becomes a space, runs of white space
    become ['_'], characters outside [A-Za-z0-9_.-] are removed and leading
    and trailing ['.'] and ['_'] are stripped.  The hasher and the image
    codec are stand-ins.  A hash is the salt, a ['$'] and the password, and
    verifies the password it was made from.  The codec takes a file that
    starts with the GIF signature for an image and its thumbnail for
    encodable; a file without the signature (an empty file, a text) cannot
    be opened, as with Pillow. *)

Module Sample.

Definition is_space (c : ascii) : bool :=
  let n := nat_of_ascii c in
  ((9 <=? n) && (n <=? 13) || (28 <=? n) && (n <=? 32))%nat.

Definition is_safe (c : ascii) : bool :=
  let n := nat_of_ascii c in
  ((48 <=? n) && (n <=? 57) || (65 <=? n) && (n <=? 90)
   || (97 <=? n) && (n <=? 122)
   || (n =? 95) || (n =? 46) || (n =? 45))%nat.

Definition is_dot_or_underscore (c : ascii) : bool :=
  let n := nat_of_ascii c in ((n =? 46) || (n =? 95))%nat.

(** ["_".join(s.split())] on a list of characters; [pending] tells
    whether a word has been emitted and white space seen since. *)
Fixpoint join_words (started pending : bool) (l : list ascii) : list ascii :=
  match l with
  | [] => []
  | c :: l' =>
      if is_space c then join_words started started l'
      else (if pending then ["_"%char] else [])
             ++ c :: join_words true false l'
  end.

Fixpoint lstrip (l : list ascii) : list ascii :=
  match l with
  | c :: l' => if is_dot_or_underscore c then lstrip l' else l
  | [] => []
  end.

Definition strip (l : list ascii) : list ascii :=
  rev (lstrip (rev (lstrip l))).

Definition secure_filename (filename : string) : string :=
  let l := String.list_ascii_of_string filename in
  let l := List.filter (λ c, (nat_of_ascii c <? 128)%nat) l in
  let l := (λ c, if Ascii.eqb c "/" then " "%char else c) <$> l in
  let l := join_words false false l in
  let l := List.filter is_safe l in
  String.string_of_list_ascii (strip l).

Definition generate_password_hash (salt password : string) : string :=
  salt +:+ "$" +:+ password.

Fixpoint after_dollar (s : string) : option string :=
  match s with
  | EmptyString => None
  | String c s' => if Ascii.eqb c "$" then Some s' else after_dollar s'
  end.

Definition check_password_hash (pwhash password : string) : bool :=
  match after_dollar pwhash with
  | Some h => bool_decide (h = password)
  | None => false
  end.

Definition PIL_open (b : bytes) : option bytes :=
  if String.prefix "GIF89a" b then Some b else None.

#[global] Instance externals : Externals :=
  Build_Externals secure_filename generate_password_hash
    check_password_hash bytes PIL_open (λ img _, Some img)
    (λ img _ _, Saved ("thumbnail of " +:+ img)).

Definition alice : User.t :=
  User.mk 1 "alice" (generate_password_hash "s4lt" "wonderland").

(** A store with one registered user, logged in, and nothing uploaded. *)
Definition w_alice : World :=
  mkWorld [alice] [] ∅ (Some 1%nat) [] [].

Definition post_upload (name : string) (content : bytes)
    (slug : option string) (now : Z) : Request :=
  mkRequest POST
    (match slug with Some s => {[ "custom_slug" := s ]} | None => ∅ end)
    {[ "image" := FileStorage.mk name content ]} now "".

Definition post_credentials (username password salt : string) : Request :=
  mkRequest POST {[ "username" := username; "password" := password ]}
    ∅ 0 salt.

End Sample.

(** ** Derived notions used in the statements *)

Section Derived.
Context `{Ext : Externals}.

(** The world [create_thumbnail] leaves. *)
Definition after_thumbnail (image_path thumbnail_path : string) (w : World)
  : World :=
  (create_thumbnail image_path thumbnail_path w).2.

(** What the body of [create_thumbnail] encodes from the source bytes, if
    no step raises. *)
Definition thumbnail_encoded (src : bytes) (thumbnail_path : string)
    (old : option bytes) : option bytes :=
  img ← PIL_open src;
  img' ← PIL_thumbnail img (128, 128)%nat;
  match PIL_save img' thumbnail_path old with
  | Saved b => Some b
  | SaveFailed _ => None
  end.

(** The pre-check of the custom slug: made for a non-empty slug only. *)
Definition slug_in_use (custom_slug : option string) (w : World) : bool :=
  match custom_slug with
  | Some s =>
      if Py.truthy s then bool_decide (is_Some (Db.image_by_slug s w))
      else false
  | None => false
  end.

(** The world after the file and its thumbnail have been written. *)
Definition after_writes (file : FileStorage.t) (w : World) : World :=
  let filename := secure_filename (FileStorage.filename file) in
  after_thumbnail filename ("thumb_" +:+ filename)
    (set_uploads (insert filename (FileStorage.stream file)) w).

(** The record a successful upload inserts. *)
Definition new_row (request : Request) (file : FileStorage.t)
    (user : User.t) (w : World) : ImageModel.t :=
  let filename := secure_filename (FileStorage.filename file) in
  ImageModel.mk (Db.next_id (ImageModel.id <$> images w)) filename
    (Some ("thumb_" +:+ filename)) (form request !! "custom_slug")
    (utcnow request) (User.id user).

(** Whether some record already holds the submitted slug value, the
    condition under which the insert is refused. *)
Definition slug_taken (custom_slug : option string) (w : World) : bool :=
  match custom_slug with
  | Some s => existsb (Db.has_slug s) (images w)
  | None => false
  end.

(** The submitted credentials are those of a registered user. *)
Definition credentials_match (request : Request) (w : World) : Prop :=
  ∃ user p,
    user ∈ users w
    ∧ form request !! "username" = Some (User.username user)
    ∧ form request !! "password" = Some p
    ∧ check_password_hash (User.password_hash user) p = true.

(** [login] answers with the redirect to the listing, and the session it
    leaves is that of the registered user whose name was submitted. *)
Definition session_established (request : Request) (w : World) : Prop :=
  ∃ user,
    user ∈ users w
    ∧ form request !! "username" = Some (User.username user)
    ∧ (login request w).1 = Returned (Redirect EpIndex)
    ∧ session (login request w).2 = Some (User.id user).

End Derived.

(** The store's uniqueness constraint on [username]. *)
Definition unique_usernames (w : World) : Prop :=
  NoDup (User.username <$> users w).

(** The number of user records with a given name. *)
Definition count_username (u : string) (w : World) : nat :=
  length (List.filter (Db.has_username u) (users w)).

(** [a] is strictly newer than [b]. *)
Definition strictly_newer (a b : ImageModel.t) : Prop :=
  (ImageModel.upload_date b < ImageModel.upload_date a)%Z.

Module Scenario.
Import Sample.

(** [alice] has uploaded [a.gif] with the slug field left empty. *)
Definition w_empty_slug : World :=
  (upload (post_upload "a.gif" "not an image" (Some "") 1) w_alice).2.

(** [alice] has uploaded [cat.gif] under the slug [kitty]. *)
Definition w_kitty : World :=
  (upload (post_upload "cat.gif" "GIF89a-cat" (Some "kitty") 1) w_alice).2.

Definition cat_row : ImageModel.t :=
  ImageModel.mk 1 "cat.gif" (Some "thumb_cat.gif") None 1 1.

(** [alice] has uploaded [cat.gif]; the folder holds it and its
    thumbnail. *)
Definition w_cat : World :=
  mkWorld [alice] [cat_row]
    {[ "cat.gif" := "GIF89a-cat"; "thumb_cat.gif" := "GIF89a-small" ]}
    (Some 1%nat) [] [].

(** Two uploads that read the same time from the clock. *)
Definition w_tie : World :=
  let w1 := (upload (post_upload "a.gif" "not an image" None 5) w_alice).2 in
  (upload (post_upload "b.gif" "not an image" None 5) w1).2.

End Scenario.

(** ** The route table and the store's constraints *)

(** A request as the router hands it to a view: the view of the matched
    rule, with the arguments the rule extracts from the URL. *)
Inductive Route :=
  | GetIndex
  | AtRegister (request : Request)
  | AtLogin (request : Request)
  | GetLogout
  | AtUpload (request : Request)
  | GetImageBySlug (custom_slug : string)
  | GetUploadedFile (filename : string)
  | GetImageDetail (image_id : nat).

Section Routing.
Context `{Ext : Externals}.

(** The [@app.route] table. *)
Definition dispatch (r : Route) : M Response :=
  match r with
  | GetIndex => index
  | AtRegister request => register request
  | AtLogin request => login request
  | GetLogout => logout
  | AtUpload request => upload request
  | GetImageBySlug custom_slug => image_by_slug custom_slug
  | GetUploadedFile filename => uploaded_file filename
  | GetImageDetail image_id => image_detail image_id
  end.

(** The world after a sequence of requests, whatever their outcomes. *)
Definition serve (rs : list Route) (w : World) : World :=
  foldl (λ w r, (dispatch r w).2) w rs.

End Routing.

(** The world [db.create_all()] and [os.makedirs] set up: empty tables, an
    empty upload folder, nobody logged in. *)
Definition initial_world : World := mkWorld [] [] ∅ None [] [].

(** What the schema promises of the tables: unique user names, unique
    primary keys, unique non-null slugs, and an existing uploader for every
    image. *)
Record store_ok (w : World) : Prop := mk_store_ok {
  ok_usernames : NoDup (User.username <$> users w);
  ok_user_ids : NoDup (User.id <$> users w);
  ok_image_ids : NoDup (ImageModel.id <$> images w);
  ok_slugs : NoDup (omap ImageModel.custom_slug (images w));
  ok_uploader :
    ∀ img, img ∈ images w →
      ∃ user, user ∈ users w ∧ User.id user = ImageModel.user_id img
}.

(** The logged-in user, if any, is a registered one. *)
Definition session_ok (w : World) : Prop :=
  ∀ uid, session w = Some uid → uid ∈ User.id <$> users w.

Module Cases.
Import Sample.

Definition poster_row : ImageModel.t :=
  ImageModel.mk 1 "thumb_cat.gif" (Some "thumb_thumb_cat.gif") None 1 1.

(** [alice] has uploaded an image whose own file name is
    [thumb_cat.gif]. *)
Definition w_poster : World :=
  mkWorld [alice] [poster_row]
    {[ "thumb_cat.gif" := "GIF89a-poster";
       "thumb_thumb_cat.gif" := "GIF89a-small-poster" ]}
    (Some 1%nat) [] [].

End Cases.

(** The effect of one request on the two tables: nothing, one new user
    with a fresh key and a fresh name, or one new image with a fresh key, a
    slug no record holds and a registered uploader. *)
Definition adds_user (w w' : World) : Prop :=
  images w' = images w
  ∧ ∃ row, users w' = users w ++ [row]
      ∧ User.id row = Db.next_id (User.id <$> users w)
      ∧ User.username row ∉ User.username <$> users w.

Definition adds_image (w w' : World) : Prop :=
  users w' = users w
  ∧ ∃ row user, images w' = images w ++ [row]
      ∧ ImageModel.id row = Db.next_id (ImageModel.id <$> images w)
      ∧ slug_taken (ImageModel.custom_slug row) w = false
      ∧ user ∈ users w ∧ ImageModel.user_id row = User.id user.

Definition keeps_tables (w w' : World) : Prop :=
  users w' = users w ∧ images w' = images w.

(** ** The URL rule of the slug route *)

Section UrlRules.
Context `{Ext : Externals}.

(** The rule [/i/<custom_slug>] on the text that follows [/i/] in the
    request path: the default converter takes one path segment, which is
    non-empty and holds no ['/']. *)
Definition slug_segment (rest : string) : option string :=
  if Py.truthy rest && negb (Py.contains "/" rest) then Some rest else None.

(** [GET /i/<rest>]: the view on the segment when the rule matches; no
    other rule of the table matches a path under [/i/], so the router
    answers 404 otherwise. *)
Definition GET_i (rest : string) : M Response :=
  match slug_segment rest with
  | Some custom_slug => image_by_slug custom_slug
  | None => mret NotFound
  end.

End UrlRules.

(** * Properties *)

Example secure_filename_traversal :
  Sample.secure_filename "../../etc/my cat.png" = "etc_my_cat.png".
Proof. vm_compute. reflexivity. Qed.

Example allowed_upper_case : allowed_file "cat.PNG" = true.
Proof. vm_compute. reflexivity. Qed.

Example allowed_last_extension_only : allowed_file "cat.png.exe" = false.
Proof. vm_compute. reflexivity. Qed.

Example allowed_needs_extension : allowed_file "README" = false.
Proof. reflexivity. Qed.

(** ** The monad and the helpers *)

Ltac unfold_M :=
  unfold mbind, mret, M_bind, M_ret, gets, modify, raise, flash, print,
    try_except in *.

Section Properties.
Context `{Ext : Externals}.

Lemma create_thumbnail_returns image_path thumbnail_path w :
  create_thumbnail image_path thumbnail_path w
  = (Returned (), after_thumbnail image_path thumbnail_path w).
Proof.
  unfold after_thumbnail, create_thumbnail, Image_open, Image_thumbnail,
    Image_save.
  unfold_M.
  destruct (uploads w !! image_path) as [src|]; [|done].
  destruct (PIL_open src) as [img|]; [|done].
  destruct (PIL_thumbnail img _) as [img'|]; [|done].
  by destruct (PIL_save img' _ _).
Qed.

Lemma after_thumbnail_frame image_path thumbnail_path w :
  let w' := after_thumbnail image_path thumbnail_path w in
  users w' = users w ∧ images w' = images w ∧ session w' = session w
  ∧ flashes w' = flashes w
  ∧ ∀ k, k ≠ thumbnail_path → uploads w' !! k = uploads w !! k.
Proof.
  unfold after_thumbnail, create_thumbnail, Image_open, Image_thumbnail,
    Image_save.
  unfold_M.
  destruct (uploads w !! image_path) as [src|]; [|done].
  destruct (PIL_open src) as [img|]; [|done].
  destruct (PIL_thumbnail img _) as [img'|]; [|done].
  destruct (PIL_save img' _ _); simpl; repeat split; try done.
  - intros k Hk. by rewrite lookup_insert_ne.
  - intros k Hk. by rewrite lookup_partial_alter_ne.
Qed.

(** A successful encoding is what ends up under the thumbnail's name. *)
Lemma after_thumbnail_saved image_path thumbnail_path w src b :
  uploads w !! image_path = Some src →
  thumbnail_encoded src thumbnail_path (uploads w !! thumbnail_path) = Some b →
  after_thumbnail image_path thumbnail_path w
  = set_uploads (insert thumbnail_path b) w.
Proof.
  intros Hsrc Henc.
  unfold after_thumbnail, create_thumbnail, Image_open, Image_thumbnail,
    Image_save, thumbnail_encoded in *.
  unfold_M. rewrite Hsrc.
  destruct (PIL_open src) as [img|]; [|done]. simpl in *.
  destruct (PIL_thumbnail img _) as [img'|]; [|done]. simpl in *.
  destruct (PIL_save img' _ _); by simplify_eq.
Qed.

(** A failure at any step is reported on standard output and nowhere
    else. *)
Lemma after_thumbnail_failed image_path thumbnail_path w src :
  uploads w !! image_path = Some src →
  thumbnail_encoded src thumbnail_path (uploads w !! thumbnail_path) = None →
  stdout (after_thumbnail image_path thumbnail_path w)
  = stdout w ++ ["Error creating thumbnail:"].
Proof.
  intros Hsrc Henc.
  unfold after_thumbnail, create_thumbnail, Image_open, Image_thumbnail,
    Image_save, thumbnail_encoded in *.
  unfold_M. rewrite Hsrc.
  destruct (PIL_open src) as [img|]; [|done]. simpl in *.
  destruct (PIL_thumbnail img _) as [img'|]; [|done]. simpl in *.
  destruct (PIL_save img' _ _); by simplify_eq.
Qed.

(** A file that cannot be opened as an image leaves the upload folder as
    it was. *)
Lemma after_thumbnail_undecodable image_path thumbnail_path w src :
  uploads w !! image_path = Some src →
  PIL_open src = None →
  uploads (after_thumbnail image_path thumbnail_path w) = uploads w.
Proof.
  intros Hsrc Hopen.
  unfold after_thumbnail, create_thumbnail, Image_open. unfold_M.
  by rewrite Hsrc, Hopen.
Qed.

(** *** The accepting path of [upload] *)

Lemma allowed_file_nonempty name :
  allowed_file name = true → name ≠ "" ∧ Py.truthy name = true.
Proof. by destruct name. Qed.

Lemma after_writes_frame file w :
  let w' := after_writes file w in
  users w' = users w ∧ images w' = images w ∧ session w' = session w
  ∧ flashes w' = flashes w.
Proof.
  unfold after_writes.
  destruct (after_thumbnail_frame
    (secure_filename (FileStorage.filename file))
    ("thumb_" +:+ secure_filename (FileStorage.filename file))
    (set_uploads (insert (secure_filename (FileStorage.filename file))
                    (FileStorage.stream file)) w))
    as (Hu & Hi & Hs & Hf & _).
  simpl in *. by rewrite Hu, Hi, Hs, Hf.
Qed.

(** [upload] on an authenticated POST carrying a file with an allowed
    name: the writes, then the slug pre-check, then the insert. *)
Lemma upload_accepted request w file user :
  req_method request = POST →
  files request !! "image" = Some file →
  allowed_file (FileStorage.filename file) = true →
  current_user w = Some user →
  upload request w =
    let w1 := after_writes file w in
    let slug := form request !! "custom_slug" in
    if slug_in_use slug w then
      (Returned (Redirect EpUpload),
       add_flash "Custom link already in use. Please choose another." w1)
    else if slug_taken slug w then (Raised IntegrityError, w1)
    else
      let row := new_row request file user w in
      (Returned (Redirect (EpImageDetail (ImageModel.id row))),
       add_flash "Image uploaded successfully!"
         (set_images (λ l, l ++ [row]) w1)).
Proof.
  intros Hm Hfile Hallowed Huser.
  destruct (allowed_file_nonempty _ Hallowed) as [Hne Htruthy].
  destruct (after_writes_frame file w) as (_ & Hi & _).
  unfold upload, login_required, file_save. unfold_M.
  rewrite Huser, Hm, Hfile.
  rewrite bool_decide_eq_false_2 by done.
  rewrite Htruthy, Hallowed. simpl.
  rewrite create_thumbnail_returns.
  change (after_thumbnail _ _ _) with (after_writes file w).
  generalize dependent (after_writes file w).
  intros [us im up se fl so] Hi. simpl in Hi. subst im.
  unfold slug_in_use, slug_taken, Db.add_image, Db.image_by_slug, new_row.
  simpl.
  destruct (form request !! "custom_slug") as [s|]; [|done].
  destruct (Py.truthy s).
  - case_bool_decide as Hin; [done|]. simpl.
    by destruct (existsb (Db.has_slug s) (images w)).
  - simpl. by destruct (existsb (Db.has_slug s) (images w)).
Qed.

Lemma existsb_find {A} (p : A → bool) (l : list A) :
  existsb p l = bool_decide (is_Some (List.find p l)).
Proof.
  induction l as [|x l IH]; simpl; [done|].
  by destruct (p x).
Qed.

Lemma slug_taken_in_use custom_slug w :
  slug_taken custom_slug w = false → slug_in_use custom_slug w = false.
Proof.
  unfold slug_taken, slug_in_use, Db.image_by_slug.
  destruct custom_slug as [s|]; [|done].
  rewrite existsb_find. by destruct (Py.truthy s).
Qed.

Lemma slug_in_use_truthy s w :
  Py.truthy s = true → slug_in_use (Some s) w = slug_taken (Some s) w.
Proof.
  intros Hs. unfold slug_taken, slug_in_use, Db.image_by_slug.
  by rewrite Hs, existsb_find.
Qed.

Lemma string_length_app (s1 s2 : string) :
  String.length (s1 +:+ s2) = (String.length s1 + String.length s2)%nat.
Proof. induction s1 as [|c s1 IH]; simpl; [done|]. by rewrite IH. Qed.

(** The name of a thumbnail differs from the name of its original. *)
Lemma thumb_name_ne filename : "thumb_" +:+ filename ≠ filename.
Proof.
  intros Heq. apply (f_equal String.length) in Heq.
  rewrite string_length_app in Heq. simpl in Heq. lia.
Qed.

Lemma after_writes_original file w :
  uploads (after_writes file w) !! secure_filename (FileStorage.filename file)
  = Some (FileStorage.stream file).
Proof.
  unfold after_writes.
  destruct (after_thumbnail_frame
    (secure_filename (FileStorage.filename file))
    ("thumb_" +:+ secure_filename (FileStorage.filename file))
    (set_uploads (insert (secure_filename (FileStorage.filename file))
                    (FileStorage.stream file)) w))
    as (_ & _ & _ & _ & Hup).
  rewrite Hup by (symmetry; apply thumb_name_ne).
  simpl. by rewrite lookup_insert_eq.
Qed.

(** [upload] with nothing in the way of the insert. *)
Lemma upload_succeeds request w file user :
  req_method request = POST →
  files request !! "image" = Some file →
  allowed_file (FileStorage.filename file) = true →
  current_user w = Some user →
  slug_taken (form request !! "custom_slug") w = false →
  upload request w =
    (Returned (Redirect
       (EpImageDetail (ImageModel.id (new_row request file user w)))),
     add_flash "Image uploaded successfully!"
       (set_images (λ l, l ++ [new_row request file user w])
          (after_writes file w))).
Proof.
  intros Hm Hfile Hallowed Huser Hfree.
  rewrite (upload_accepted request w file user) by done.
  cbv zeta. by rewrite (slug_taken_in_use _ _ Hfree), Hfree.
Qed.

(** ** Thumbnail failure (C1) *)

(** C1, as the code has it: on an authenticated POST to [/upload] with an
    allowed file name and a slug no record holds, a thumbnail generation
    that raises is reported on standard output and the upload still
    succeeds; the record it creates names the thumbnail
    ["thumb_" + filename] all the same, its [thumbnail] field is not left
    null. *)
Theorem upload_thumbnail_failure request w file user :
  req_method request = POST →
  files request !! "image" = Some file →
  allowed_file (FileStorage.filename file) = true →
  current_user w = Some user →
  slug_taken (form request !! "custom_slug") w = false →
  (let filename := secure_filename (FileStorage.filename file) in
   thumbnail_encoded (FileStorage.stream file) ("thumb_" +:+ filename)
     (uploads w !! ("thumb_" +:+ filename)) = None) →
  ∃ row w',
    upload request w
    = (Returned (Redirect (EpImageDetail (ImageModel.id row))), w')
    ∧ images w' = images w ++ [row]
    ∧ ImageModel.filename row = secure_filename (FileStorage.filename file)
    ∧ ImageModel.thumbnail row
      = Some ("thumb_" +:+ secure_filename (FileStorage.filename file))
    ∧ uploads w' !! ImageModel.filename row = Some (FileStorage.stream file)
    ∧ stdout w' = stdout w ++ ["Error creating thumbnail:"]
    ∧ flashes w' = flashes w ++ ["Image uploaded successfully!"].
Proof.
  intros Hm Hfile Hallowed Huser Hfree Hfail. cbv zeta in Hfail.
  eexists (new_row request file user w), _.
  split; [by apply upload_succeeds|].
  destruct (after_writes_frame file w) as (_ & Hi & _ & Hf).
  simpl. rewrite Hi, Hf. repeat split.
  - apply after_writes_original.
  - unfold after_writes.
    set (f := secure_filename (FileStorage.filename file)) in *.
    rewrite (after_thumbnail_failed f ("thumb_" +:+ f) _
               (FileStorage.stream file)); [done| |].
    + simpl. by rewrite lookup_insert_eq.
    + simpl. rewrite lookup_insert_ne by (symmetry; apply thumb_name_ne).
      done.
Qed.

End Properties.

(** A run of [upload_thumbnail_failure]: an empty file named
    [broken.png]. *)
Lemma upload_thumbnail_failure_witness :
  ∃ row w',
    upload (Sample.post_upload "broken.png" "" None 7) Sample.w_alice
    = (Returned (Redirect (EpImageDetail (ImageModel.id row))), w')
    ∧ images w' = images Sample.w_alice ++ [row]
    ∧ ImageModel.filename row = "broken.png"
    ∧ ImageModel.thumbnail row = Some "thumb_broken.png"
    ∧ uploads w' !! ImageModel.filename row = Some ""
    ∧ stdout w' = stdout Sample.w_alice ++ ["Error creating thumbnail:"]
    ∧ flashes w' = flashes Sample.w_alice ++ ["Image uploaded successfully!"].
Proof.
  refine (upload_thumbnail_failure
            (Sample.post_upload "broken.png" "" None 7) Sample.w_alice
            (FileStorage.mk "broken.png" "") Sample.alice _ _ _ _ _ _);
    vm_compute; reflexivity.
Defined.

(** C1 as stated fails: the thumbnail of an empty file cannot be
    generated, the upload succeeds, and the record's [thumbnail] field
    holds a name under which the folder has no file. *)
Lemma upload_thumbnail_field_not_null :
  let request := Sample.post_upload "broken.png" "" None 7 in
  let w' := (upload request Sample.w_alice).2 in
  thumbnail_encoded "" "thumb_broken.png" None = None
  ∧ (upload request Sample.w_alice).1 = Returned (Redirect (EpImageDetail 1))
  ∧ ImageModel.thumbnail <$> images w' = [Some "thumb_broken.png"]
  ∧ uploads w' !! "thumb_broken.png" = None.
Proof. vm_compute. done. Qed.

Section Conflicts.
Context `{Ext : Externals}.

Lemma register_existing request w u :
  req_method request = POST →
  form request !! "username" = Some u →
  existsb (Db.has_username u) (users w) = true →
  register request w
  = (Returned (Redirect EpRegister), add_flash "Username already exists!" w).
Proof.
  intros Hm Hu Hex. unfold register, Db.user_by_username. unfold_M.
  rewrite Hm, Hu. rewrite existsb_find in Hex.
  apply bool_decide_eq_true_1 in Hex. by destruct Hex as [x ->].
Qed.

Lemma upload_slug_in_use request w file user s :
  req_method request = POST →
  files request !! "image" = Some file →
  allowed_file (FileStorage.filename file) = true →
  current_user w = Some user →
  form request !! "custom_slug" = Some s →
  Py.truthy s = true →
  slug_taken (Some s) w = true →
  upload request w
  = (Returned (Redirect EpUpload),
     add_flash "Custom link already in use. Please choose another."
       (after_writes file w)).
Proof.
  intros Hm Hfile Hallowed Huser Hslug Hs Htaken.
  rewrite (upload_accepted request w file user) by done.
  cbv zeta. by rewrite Hslug, slug_in_use_truthy, Htaken.
Qed.

(** ** Uniqueness conflicts (C2) *)

(** C2, as the code has it: the handlers look a conflict up before they
    insert.  A username some user already holds, and a non-empty custom
    slug some image already holds, are answered with a flashed message
    and a redirect to the form; no row is inserted, so the store raises
    nothing.  (The handlers hold no handler for a conflict the insert
    itself raises.) *)
Theorem conflicts_prechecked request_r w_r u request_u w_u file user s :
  req_method request_r = POST →
  form request_r !! "username" = Some u →
  existsb (Db.has_username u) (users w_r) = true →
  req_method request_u = POST →
  files request_u !! "image" = Some file →
  allowed_file (FileStorage.filename file) = true →
  current_user w_u = Some user →
  form request_u !! "custom_slug" = Some s →
  Py.truthy s = true →
  slug_taken (Some s) w_u = true →
  (register request_r w_r
   = (Returned (Redirect EpRegister),
      add_flash "Username already exists!" w_r))
  ∧ (∃ w', upload request_u w_u = (Returned (Redirect EpUpload), w')
       ∧ flashes w'
         = flashes w_u
           ++ ["Custom link already in use. Please choose another."]
       ∧ images w' = images w_u ∧ users w' = users w_u).
Proof.
  intros. split; [by apply (register_existing request_r w_r u)|].
  eexists. split; [by apply (upload_slug_in_use request_u w_u file user s)|].
  destruct (after_writes_frame file w_u) as (Hu & Hi & _ & Hf).
  simpl. by rewrite Hu, Hi, Hf.
Qed.

(** ** Rejected file names (C5) *)

(** A non-empty file name that [allowed_file] refuses: the form is
    rendered again and the world is left as it was, flashes included. *)
Lemma upload_disallowed request w file user :
  req_method request = POST →
  files request !! "image" = Some file →
  FileStorage.filename file ≠ "" →
  allowed_file (FileStorage.filename file) = false →
  current_user w = Some user →
  upload request w = (Returned (RenderTemplate "upload.html"), w).
Proof.
  intros Hm Hfile Hne Hallowed Huser.
  unfold upload, login_required. unfold_M.
  rewrite Huser, Hm, Hfile, Hallowed.
  rewrite bool_decide_eq_false_2 by done.
  by rewrite andb_false_r.
Qed.

End Conflicts.

(** A run of [conflicts_prechecked]: [alice] registers again, and a second
    upload asks for the slug [kitty]. *)
Lemma conflicts_prechecked_witness :
  (register (Sample.post_credentials "alice" "rabbit" "pepper") Sample.w_alice
   = (Returned (Redirect EpRegister),
      add_flash "Username already exists!" Sample.w_alice))
  ∧ (∃ w', upload (Sample.post_upload "dog.gif" "GIF89a-dog" (Some "kitty") 2)
             Scenario.w_kitty
           = (Returned (Redirect EpUpload), w')
       ∧ flashes w'
         = flashes Scenario.w_kitty
           ++ ["Custom link already in use. Please choose another."]
       ∧ images w' = images Scenario.w_kitty
       ∧ users w' = users Scenario.w_kitty).
Proof.
  refine (conflicts_prechecked
            (Sample.post_credentials "alice" "rabbit" "pepper") Sample.w_alice
            "alice"
            (Sample.post_upload "dog.gif" "GIF89a-dog" (Some "kitty") 2)
            Scenario.w_kitty (FileStorage.mk "dog.gif" "GIF89a-dog")
            Sample.alice "kitty" _ _ _ _ _ _ _ _ _ _);
    vm_compute; reflexivity.
Defined.

(** C2 as stated fails: with a record holding the empty slug, a second
    upload with an empty slug field is not looked up before the insert, the
    insert violates the uniqueness of [custom_slug], and [upload] raises
    the store's [IntegrityError]. *)
Lemma upload_conflict_uncaught :
  let request := Sample.post_upload "b.gif" "not an image" (Some "") 2 in
  slug_in_use (form request !! "custom_slug") Scenario.w_empty_slug = false
  ∧ slug_taken (form request !! "custom_slug") Scenario.w_empty_slug = true
  ∧ (upload request Scenario.w_empty_slug).1 = Raised IntegrityError.
Proof. vm_compute. done. Qed.

(** C3 on the code: the first upload with an empty slug field succeeds and
    its record holds the empty string as [custom_slug], not null; the
    second such upload raises [IntegrityError] and creates no record. *)
Theorem upload_empty_slug_twice :
  let first := Sample.post_upload "a.gif" "not an image" (Some "") 1 in
  let second := Sample.post_upload "b.gif" "not an image" (Some "") 2 in
  let r1 := upload first Sample.w_alice in
  let r2 := upload second r1.2 in
  r1.1 = Returned (Redirect (EpImageDetail 1))
  ∧ ImageModel.custom_slug <$> images r1.2 = [Some ""]
  ∧ r2.1 = Raised IntegrityError
  ∧ images r2.2 = images r1.2.
Proof. vm_compute. done. Qed.

(** C5 on the code: [setup.exe] is refused, no record is created, and no
    message is flashed; the upload form is rendered again and nothing
    else. *)
Theorem upload_exe_silently_refused :
  allowed_file "setup.exe" = false
  ∧ upload (Sample.post_upload "setup.exe" "MZ" None 3) Sample.w_alice
    = (Returned (RenderTemplate "upload.html"), Sample.w_alice).
Proof. vm_compute. done. Qed.

Section Uploads.
Context `{Ext : Externals}.

Lemma current_user_frame w w' :
  users w' = users w → session w' = session w →
  current_user w' = current_user w.
Proof.
  intros Hu Hs. unfold current_user, load_user, Db.user_get.
  by rewrite Hu, Hs.
Qed.

Lemma slug_taken_frame custom_slug w w' :
  images w' = images w → slug_taken custom_slug w' = slug_taken custom_slug w.
Proof. intros Hi. unfold slug_taken. by rewrite Hi. Qed.

Lemma find_snoc {A} (p : A → bool) (l : list A) (x : A) :
  List.find p l = None → p x = true → List.find p (l ++ [x]) = Some x.
Proof.
  intros Hl Hx. induction l as [|y l IH]; simpl in *; [by rewrite Hx|].
  destruct (p y); [done|]. by apply IH.
Qed.

Lemma find_app_some {A} (p : A → bool) (l m : list A) (x : A) :
  List.find p l = Some x → List.find p (l ++ m) = Some x.
Proof.
  induction l as [|y l IH]; simpl; [done|]. by destruct (p y).
Qed.

Lemma slug_taken_find s w :
  slug_taken (Some s) w = false → Db.image_by_slug s w = None.
Proof.
  unfold slug_taken, Db.image_by_slug. rewrite existsb_find.
  intros Hf. apply bool_decide_eq_false_1 in Hf.
  destruct (List.find _ _); [|done]. by destruct Hf.
Qed.

(** Whatever becomes of the record, an accepted file is in the folder
    under its sanitized name, and the rows of the images table are kept. *)
Lemma upload_accepted_effects request w file user :
  req_method request = POST →
  files request !! "image" = Some file →
  allowed_file (FileStorage.filename file) = true →
  current_user w = Some user →
  let w' := (upload request w).2 in
  uploads w' = uploads (after_writes file w)
  ∧ (images w' = images w
     ∨ images w' = images w ++ [new_row request file user w]).
Proof.
  intros Hm Hfile Hallowed Huser.
  rewrite (upload_accepted request w file user) by done.
  destruct (after_writes_frame file w) as (_ & Hi & _).
  cbv zeta.
  destruct (slug_in_use _ _); [by auto|].
  destruct (slug_taken _ _); simpl; rewrite Hi; by auto.
Qed.

(** ** A slug already claimed (C4) *)

(** C4: an upload that asks for a (non-empty) slug some image holds is
    answered with a redirect to the upload form, and the message "Custom
    link already in use. Please choose another." is added to the flashed
    messages.  Its only effects are the one write of the file, the
    thumbnail attempt and the message: no record is created and the
    session is kept.  The same file sent again with a slug no image holds
    is accepted with the message of success, and its record carries that
    slug. *)
Theorem upload_taken_slug_then_retry request retry w file user s s' :
  req_method request = POST →
  files request !! "image" = Some file →
  allowed_file (FileStorage.filename file) = true →
  current_user w = Some user →
  form request !! "custom_slug" = Some s →
  Py.truthy s = true →
  slug_taken (Some s) w = true →
  req_method retry = POST →
  files retry !! "image" = Some file →
  form retry !! "custom_slug" = Some s' →
  slug_taken (Some s') w = false →
  ∃ w1 row w2,
    upload request w = (Returned (Redirect EpUpload), w1)
    ∧ w1 = add_flash "Custom link already in use. Please choose another."
             (after_writes file w)
    ∧ flashes w1
      = flashes w ++ ["Custom link already in use. Please choose another."]
    ∧ images w1 = images w
    ∧ users w1 = users w
    ∧ session w1 = session w
    ∧ upload retry w1
      = (Returned (Redirect (EpImageDetail (ImageModel.id row))), w2)
    ∧ flashes w2 = flashes w1 ++ ["Image uploaded successfully!"]
    ∧ images w2 = images w ++ [row]
    ∧ ImageModel.custom_slug row = Some s'
    ∧ ImageModel.filename row = secure_filename (FileStorage.filename file)
    ∧ uploads w2 !! ImageModel.filename row = Some (FileStorage.stream file).
Proof.
  intros Hm Hfile Hallowed Huser Hslug Hs Htaken Hm' Hfile' Hslug' Hfree.
  destruct (after_writes_frame file w) as (Hu & Hi & Hse & Hfl).
  set (w1 := add_flash "Custom link already in use. Please choose another."
               (after_writes file w)).
  assert (Huser1 : current_user w1 = Some user).
  { rewrite <- Huser. by apply current_user_frame. }
  assert (Hfree1 : slug_taken (form retry !! "custom_slug") w1 = false).
  { rewrite Hslug', <- Hfree. by apply slug_taken_frame. }
  exists w1, (new_row retry file user w1). eexists.
  split; [by apply (upload_slug_in_use request w file user s)|].
  split; [done|].
  split; [simpl; by rewrite Hfl|].
  split; [done|]. split; [done|]. split; [done|].
  split; [by apply upload_succeeds|].
  destruct (after_writes_frame file w1) as (_ & Hi1 & _ & Hfl1).
  simpl. rewrite Hi1, Hfl1. simpl. rewrite Hi.
  repeat split; [done|]. apply after_writes_original.
Qed.

(** ** Round trip through a slug (C9) *)

(** C9, as the code has it: after an upload with a slug no image held,
    a slug that is one non-empty path segment without ['/'],
    [GET /i/<slug>] finds the new record and sends the bytes that were
    uploaded, at once and in every later world that has kept the rows and
    has not replaced the file; [GET /i/<slug>] for a slug no image holds
    answers 404. *)
Theorem slug_round_trip request w file user s :
  req_method request = POST →
  files request !! "image" = Some file →
  allowed_file (FileStorage.filename file) = true →
  current_user w = Some user →
  form request !! "custom_slug" = Some s →
  Py.truthy s = true →
  Py.contains "/" s = false →
  slug_taken (Some s) w = false →
  (∃ row w',
     upload request w
     = (Returned (Redirect (EpImageDetail (ImageModel.id row))), w')
     ∧ ImageModel.custom_slug row = Some s
     ∧ Db.image_by_slug s w' = Some row
     ∧ image_by_slug s w'
       = (Returned (SendFile (FileStorage.stream file)), w')
     ∧ GET_i s w' = (Returned (SendFile (FileStorage.stream file)), w')
     ∧ ∀ later more,
         images later = images w' ++ more →
         uploads later !! ImageModel.filename row
         = uploads w' !! ImageModel.filename row →
         image_by_slug s later
         = (Returned (SendFile (FileStorage.stream file)), later)
         ∧ GET_i s later
           = (Returned (SendFile (FileStorage.stream file)), later))
  ∧ (∀ w0 s0,
       slug_taken (Some s0) w0 = false →
       image_by_slug s0 w0 = (Returned NotFound, w0)
       ∧ GET_i s0 w0 = (Returned NotFound, w0)).
Proof.
  intros Hm Hfile Hallowed Huser Hslug Htruthy Hslash Hfree.
  pose proof (slug_taken_find _ _ Hfree) as Hnone.
  assert (Hroute : ∀ w0, GET_i s w0 = image_by_slug s w0).
  { intros w0. unfold GET_i, slug_segment. by rewrite Htruthy, Hslash. }
  split.
  - exists (new_row request file user w). eexists.
    split; [apply upload_succeeds; by rewrite ?Hslug|].
    destruct (after_writes_frame file w) as (_ & Hi & _).
    set (w' := add_flash "Image uploaded successfully!"
                 (set_images (λ l, l ++ [new_row request file user w])
                    (after_writes file w))).
    assert (Hfind : Db.image_by_slug s w'
                    = Some (new_row request file user w)).
    { unfold Db.image_by_slug. simpl. rewrite Hi.
      apply find_snoc; [done|].
      unfold Db.has_slug. simpl. by rewrite Hslug, bool_decide_eq_true_2. }
    assert (Hfile' : uploads w'
                       !! ImageModel.filename (new_row request file user w)
                     = Some (FileStorage.stream file)).
    { simpl. apply after_writes_original. }
    assert (Hlater : ∀ later more,
              images later = images w' ++ more →
              uploads later !! ImageModel.filename
                                 (new_row request file user w)
              = uploads w' !! ImageModel.filename
                                (new_row request file user w) →
              image_by_slug s later
              = (Returned (SendFile (FileStorage.stream file)), later)).
    { intros later more Himgs Hkept.
      unfold image_by_slug, send_from_directory, Db.image_by_slug in *.
      unfold_M. rewrite Himgs, (find_app_some _ _ more _ Hfind).
      by rewrite Hkept, Hfile'. }
    assert (Hnow : image_by_slug s w'
                   = (Returned (SendFile (FileStorage.stream file)), w')).
    { apply (Hlater w' []); [by rewrite app_nil_r|done]. }
    split; [done|]. split; [done|]. split; [done|].
    split; [by rewrite Hroute|].
    intros later more Himgs Hkept. rewrite Hroute.
    split; by apply (Hlater later more).
  - intros w0 s0 Hfree0.
    assert (Hview : image_by_slug s0 w0 = (Returned NotFound, w0)).
    { unfold image_by_slug. unfold_M.
      by rewrite (slug_taken_find _ _ Hfree0). }
    split; [done|]. unfold GET_i, slug_segment.
    by destruct (Py.truthy s0 && negb (Py.contains "/" s0)).
Qed.

(** ** File name collisions (C10) *)

(** C10, as the code has it: an accepted upload whose sanitized name is
    the stored name of an earlier image replaces the stored original, so
    the earlier record's file name resolves to the new bytes.  The
    thumbnail under ["thumb_" + filename] is replaced by the new thumbnail
    when that could be generated, and is left as it was when the new bytes
    cannot be opened or scaled as an image.  The collision changes nothing
    else: with a slug no image holds the upload succeeds, and its record
    carries the same, unrenamed file name. *)
Theorem upload_overwrites request w file user old :
  req_method request = POST →
  files request !! "image" = Some file →
  allowed_file (FileStorage.filename file) = true →
  current_user w = Some user →
  old ∈ images w →
  ImageModel.filename old = secure_filename (FileStorage.filename file) →
  let filename := secure_filename (FileStorage.filename file) in
  let w' := (upload request w).2 in
  old ∈ images w'
  ∧ uploads w' !! filename = Some (FileStorage.stream file)
  ∧ uploaded_file (ImageModel.filename old) w'
    = (Returned (SendFile (FileStorage.stream file)), w')
  ∧ (∀ b, thumbnail_encoded (FileStorage.stream file) ("thumb_" +:+ filename)
            (uploads w !! ("thumb_" +:+ filename)) = Some b →
          uploads w' !! ("thumb_" +:+ filename) = Some b)
  ∧ ((PIL_open (FileStorage.stream file) = None
      ∨ ∃ img, PIL_open (FileStorage.stream file) = Some img
               ∧ PIL_thumbnail img (128, 128)%nat = None) →
     uploads w' !! ("thumb_" +:+ filename)
     = uploads w !! ("thumb_" +:+ filename))
  ∧ (slug_taken (form request !! "custom_slug") w = false →
     ∃ row, upload request w
            = (Returned (Redirect (EpImageDetail (ImageModel.id row))), w')
       ∧ images w' = images w ++ [row]
       ∧ ImageModel.filename row = filename).
Proof.
  intros Hm Hfile Hallowed Huser Hold Hname. cbv zeta.
  destruct (upload_accepted_effects request w file user)
    as [Hup Himg]; [done..|].
  assert (Hnew : uploads (upload request w).2
                   !! secure_filename (FileStorage.filename file)
                 = Some (FileStorage.stream file)).
  { rewrite Hup. apply after_writes_original. }
  split; [|split; [done|split; [|split; [|split]]]].
  - destruct Himg as [-> | ->]; [done|]. apply elem_of_app. by left.
  - unfold uploaded_file, send_from_directory. unfold_M.
    by rewrite Hname, Hnew.
  - intros b Hb. rewrite Hup. unfold after_writes.
    set (f := secure_filename (FileStorage.filename file)) in *.
    rewrite (after_thumbnail_saved f ("thumb_" +:+ f) _
               (FileStorage.stream file) b).
    + simpl. by rewrite lookup_insert_eq.
    + simpl. by rewrite lookup_insert_eq.
    + simpl. by rewrite lookup_insert_ne by (symmetry; apply thumb_name_ne).
  - intros Hfail. rewrite Hup. unfold after_writes.
    set (f := secure_filename (FileStorage.filename file)) in *.
    assert (Hsame : uploads
              (after_thumbnail f ("thumb_" +:+ f)
                 (set_uploads (insert f (FileStorage.stream file)) w))
            = <[f := FileStorage.stream file]> (uploads w)).
    { unfold after_thumbnail, create_thumbnail, Image_open, Image_thumbnail.
      unfold_M. simpl. rewrite lookup_insert_eq.
      destruct Hfail as [Hopen | (img & Hopen & Hscale)].
      - by rewrite Hopen.
      - by rewrite Hopen, Hscale. }
    rewrite Hsame.
    by rewrite lookup_insert_ne by (symmetry; apply thumb_name_ne).
  - intros Hfree. exists (new_row request file user w).
    rewrite (upload_succeeds request w file user) by done.
    destruct (after_writes_frame file w) as (_ & Hi & _).
    simpl. by rewrite Hi.
Qed.

End Uploads.

(** A run of [upload_taken_slug_then_retry]: [dog.gif] asks for [kitty],
    which [cat.gif] holds, then for [puppy]. *)
Lemma upload_taken_slug_then_retry_witness :
  ∃ w1 row w2,
    upload (Sample.post_upload "dog.gif" "GIF89a-dog" (Some "kitty") 2)
      Scenario.w_kitty
    = (Returned (Redirect EpUpload), w1)
    ∧ w1 = add_flash "Custom link already in use. Please choose another."
             (after_writes (FileStorage.mk "dog.gif" "GIF89a-dog")
                Scenario.w_kitty)
    ∧ flashes w1
      = flashes Scenario.w_kitty
        ++ ["Custom link already in use. Please choose another."]
    ∧ images w1 = images Scenario.w_kitty
    ∧ users w1 = users Scenario.w_kitty
    ∧ session w1 = session Scenario.w_kitty
    ∧ upload (Sample.post_upload "dog.gif" "GIF89a-dog" (Some "puppy") 3) w1
      = (Returned (Redirect (EpImageDetail (ImageModel.id row))), w2)
    ∧ flashes w2 = flashes w1 ++ ["Image uploaded successfully!"]
    ∧ images w2 = images Scenario.w_kitty ++ [row]
    ∧ ImageModel.custom_slug row = Some "puppy"
    ∧ ImageModel.filename row = "dog.gif"
    ∧ uploads w2 !! ImageModel.filename row = Some "GIF89a-dog".
Proof.
  refine (upload_taken_slug_then_retry
            (Sample.post_upload "dog.gif" "GIF89a-dog" (Some "kitty") 2)
            (Sample.post_upload "dog.gif" "GIF89a-dog" (Some "puppy") 3)
            Scenario.w_kitty (FileStorage.mk "dog.gif" "GIF89a-dog")
            Sample.alice "kitty" "puppy" _ _ _ _ _ _ _ _ _ _ _);
    vm_compute; reflexivity.
Defined.

(** A run of [slug_round_trip]: [cat.gif] under the slug [kitty]. *)
Lemma slug_round_trip_witness :
  (∃ row w',
     upload (Sample.post_upload "cat.gif" "GIF89a-cat" (Some "kitty") 1)
       Sample.w_alice
     = (Returned (Redirect (EpImageDetail (ImageModel.id row))), w')
     ∧ ImageModel.custom_slug row = Some "kitty"
     ∧ Db.image_by_slug "kitty" w' = Some row
     ∧ image_by_slug "kitty" w' = (Returned (SendFile "GIF89a-cat"), w')
     ∧ GET_i "kitty" w' = (Returned (SendFile "GIF89a-cat"), w')
     ∧ ∀ later more,
         images later = images w' ++ more →
         uploads later !! ImageModel.filename row
         = uploads w' !! ImageModel.filename row →
         image_by_slug "kitty" later
         = (Returned (SendFile "GIF89a-cat"), later)
         ∧ GET_i "kitty" later = (Returned (SendFile "GIF89a-cat"), later))
  ∧ (∀ w0 s0,
       slug_taken (Some s0) w0 = false →
       image_by_slug s0 w0 = (Returned NotFound, w0)
       ∧ GET_i s0 w0 = (Returned NotFound, w0)).
Proof.
  refine (slug_round_trip
            (Sample.post_upload "cat.gif" "GIF89a-cat" (Some "kitty") 1)
            Sample.w_alice (FileStorage.mk "cat.gif" "GIF89a-cat")
            Sample.alice "kitty" _ _ _ _ _ _ _ _);
    vm_compute; reflexivity.
Defined.

(** C9 as stated fails: the slug [a/b] is held by no image, the upload
    that asks for it succeeds and its record holds it, but the rule
    [/i/<custom_slug>] matches no path with a second ['/'], so
    [GET /i/a/b] answers 404 although the file is in the folder. *)
Lemma slug_with_slash_unreachable :
  let request := Sample.post_upload "cat.gif" "not an image" (Some "a/b") 1 in
  let r := upload request Sample.w_alice in
  slug_taken (Some "a/b") Sample.w_alice = false
  ∧ r.1 = Returned (Redirect (EpImageDetail 1))
  ∧ ImageModel.custom_slug <$> images r.2 = [Some "a/b"]
  ∧ uploads r.2 !! "cat.gif" = Some "not an image"
  ∧ GET_i "a/b" r.2 = (Returned NotFound, r.2).
Proof. vm_compute. done. Qed.

Example slug_unknown_404 :
  image_by_slug "nobody" Scenario.w_kitty = (Returned NotFound, Scenario.w_kitty).
Proof. vm_compute. reflexivity. Qed.

(** Two runs of [upload_overwrites] on a folder that holds [cat.gif] and
    its thumbnail: a second [cat.gif] of which a thumbnail is made, and a
    third that is an empty file. *)
Lemma upload_overwrites_witness :
  (let request := Sample.post_upload "cat.gif" "GIF89a-other-cat" None 9 in
   let w' := (upload request Scenario.w_cat).2 in
   Scenario.cat_row ∈ images w'
   ∧ uploads w' !! "cat.gif" = Some "GIF89a-other-cat"
   ∧ uploaded_file "cat.gif" w' = (Returned (SendFile "GIF89a-other-cat"), w')
   ∧ uploads w' !! "thumb_cat.gif" = Some "thumbnail of GIF89a-other-cat"
   ∧ ∃ row, upload request Scenario.w_cat
            = (Returned (Redirect (EpImageDetail (ImageModel.id row))), w')
       ∧ images w' = images Scenario.w_cat ++ [row]
       ∧ ImageModel.filename row = "cat.gif")
  ∧ (let request := Sample.post_upload "cat.gif" "" None 9 in
     let w' := (upload request Scenario.w_cat).2 in
     Scenario.cat_row ∈ images w'
     ∧ uploads w' !! "cat.gif" = Some ""
     ∧ uploads w' !! "thumb_cat.gif" = uploads Scenario.w_cat !! "thumb_cat.gif").
Proof.
  assert (Hin : Scenario.cat_row ∈ images Scenario.w_cat)
    by apply list_elem_of_here.
  split; cbv zeta.
  - destruct (upload_overwrites
                (Sample.post_upload "cat.gif" "GIF89a-other-cat" None 9)
                Scenario.w_cat (FileStorage.mk "cat.gif" "GIF89a-other-cat")
                Sample.alice Scenario.cat_row)
      as (Hold & Hnew & Hserve & Hthumb & _ & Hsucc);
      try exact Hin; try (vm_compute; reflexivity).
    split; [exact Hold|]. split; [exact Hnew|]. split; [exact Hserve|].
    split.
    + apply (Hthumb "thumbnail of GIF89a-other-cat").
      vm_compute. reflexivity.
    + apply Hsucc. vm_compute. reflexivity.
  - destruct (upload_overwrites
                (Sample.post_upload "cat.gif" "" None 9)
                Scenario.w_cat (FileStorage.mk "cat.gif" "")
                Sample.alice Scenario.cat_row)
      as (Hold & Hnew & _ & _ & Hkept & _);
      try exact Hin; try (vm_compute; reflexivity).
    split; [exact Hold|]. split; [exact Hnew|].
    apply Hkept. left. vm_compute. reflexivity.
Defined.

(** C10 as stated fails on the thumbnail: a second [cat.gif], this one an
    empty file, is accepted and replaces the original, but no thumbnail can
    be made of it and the earlier thumbnail stays where it was. *)
Lemma upload_keeps_stale_thumbnail :
  let request := Sample.post_upload "cat.gif" "" None 9 in
  let w' := (upload request Scenario.w_cat).2 in
  (upload request Scenario.w_cat).1 = Returned (Redirect (EpImageDetail 2))
  ∧ uploads w' !! "cat.gif" = Some ""
  ∧ uploads Scenario.w_cat !! "thumb_cat.gif" = Some "GIF89a-small"
  ∧ uploads w' !! "thumb_cat.gif" = Some "GIF89a-small".
Proof. vm_compute. done. Qed.

Section Accounts.
Context `{Ext : Externals}.

Lemma find_username_none u (l : list User.t) :
  List.find (Db.has_username u) l = None →
  length (List.filter (Db.has_username u) l) = 0%nat.
Proof.
  induction l as [|x l IH]; simpl; [done|].
  destruct (Db.has_username u x); [done|]. apply IH.
Qed.

Lemma find_username_absent u (l : list User.t) :
  u ∉ User.username <$> l → List.find (Db.has_username u) l = None.
Proof.
  induction l as [|x l IH]; simpl; [done|].
  intros Hnot. apply not_elem_of_cons in Hnot as [Hne Hnot].
  unfold Db.has_username at 1. rewrite bool_decide_eq_false_2 by done.
  by apply IH.
Qed.

Lemma find_username_unique (l : list User.t) user :
  NoDup (User.username <$> l) → user ∈ l →
  List.find (Db.has_username (User.username user)) l = Some user.
Proof.
  induction l as [|x l IH]; simpl; intros Hnd Hin.
  - by apply elem_of_nil in Hin.
  - apply NoDup_cons in Hnd as [Hx Hnd].
    unfold Db.has_username at 1.
    apply elem_of_cons in Hin as [-> | Hin].
    + by rewrite bool_decide_eq_true_2.
    + rewrite bool_decide_eq_false_2; [by apply IH|].
      intros Heq. apply Hx. rewrite Heq.
      by apply list_elem_of_fmap_2.
Qed.

Lemma find_username_some u (l : list User.t) user :
  List.find (Db.has_username u) l = Some user →
  user ∈ l ∧ User.username user = u.
Proof.
  intros Hf. apply find_some in Hf as [Hin Hu].
  split; [by apply list_elem_of_In|].
  by apply bool_decide_eq_true_1 in Hu.
Qed.

Lemma count_username_unique u (l : list User.t) user :
  NoDup (User.username <$> l) →
  List.find (Db.has_username u) l = Some user →
  length (List.filter (Db.has_username u) l) = 1%nat.
Proof.
  induction l as [|x l IH]; simpl; intros Hnd Hf; [done|].
  apply NoDup_cons in Hnd as [Hx Hnd].
  destruct (Db.has_username u x) eqn:Hux.
  - simpl. f_equal. apply find_username_none, find_username_absent.
    apply bool_decide_eq_true_1 in Hux. by rewrite <- Hux.
  - by apply IH.
Qed.

Lemma filter_snoc {A} (p : A → bool) (l : list A) (x : A) :
  List.filter p (l ++ [x])
  = List.filter p l ++ (if p x then [x] else []).
Proof. induction l as [|y l IH]; simpl; [done|]. rewrite IH. by destruct (p y). Qed.

(** [register] keeps the usernames of the store distinct. *)
Lemma register_keeps_unique request w :
  unique_usernames w → unique_usernames (register request w).2.
Proof.
  unfold unique_usernames, register, Db.user_by_username, set_password,
    Db.add_user.
  unfold_M. intros Hnd.
  destruct (req_method request); [done|].
  destruct (form request !! "username") as [u|]; simpl.
  2:{ by destruct (form request !! "password"). }
  destruct (List.find (Db.has_username u) (users w)) as [x|] eqn:Hfind;
    [done|].
  destruct (form request !! "password") as [p|]; simpl; [|done].
  rewrite (existsb_find _ (users w)), Hfind. simpl.
  rewrite fmap_app. apply NoDup_app. split; [done|].
  split; [|apply NoDup_singleton].
  intros u' Hin Hin'. apply list_elem_of_singleton in Hin'. subst u'.
  apply list_elem_of_fmap in Hin as (y & Hy & Hin).
  apply list_elem_of_In in Hin.
  apply (find_none _ _ Hfind) in Hin.
  unfold Db.has_username in Hin. by apply bool_decide_eq_false_1 in Hin.
Qed.

(** ** Registering a name twice (C6) *)

(** C6: of two registrations of the same username, the second is
    answered with a redirect to the registration form, the message
    "Username already exists!" is added to the flashed messages, no user
    is added, and the store then holds exactly one user of that name. *)
Theorem register_twice req1 req2 w u p1 :
  unique_usernames w →
  req_method req1 = POST →
  form req1 !! "username" = Some u →
  form req1 !! "password" = Some p1 →
  req_method req2 = POST →
  form req2 !! "username" = Some u →
  let w1 := (register req1 w).2 in
  register req2 w1
  = (Returned (Redirect EpRegister), add_flash "Username already exists!" w1)
  ∧ (register req2 w1).1 = Returned (Redirect EpRegister)
  ∧ flashes (register req2 w1).2
    = flashes w1 ++ ["Username already exists!"]
  ∧ users (register req2 w1).2 = users w1
  ∧ count_username u (register req2 w1).2 = 1%nat.
Proof.
  intros Hnd Hm1 Hu1 Hp1 Hm2 Hu2. cbv zeta.
  assert (Hw1 : existsb (Db.has_username u) (users (register req1 w).2) = true
                ∧ count_username u (register req1 w).2 = 1%nat).
  { unfold register, Db.user_by_username, set_password, Db.add_user,
      count_username.
    unfold_M. rewrite Hm1, Hu1, Hp1.
    destruct (List.find (Db.has_username u) (users w)) as [x|] eqn:Hfind.
    - simpl. split; [by rewrite existsb_find, Hfind|].
      by apply (count_username_unique u _ x).
    - simpl. rewrite (existsb_find _ (users w)), Hfind. simpl.
      assert (Hnew : Db.has_username u
                (User.mk (Db.next_id (User.id <$> users w)) u
                   (generate_password_hash (entropy req1) p1)) = true).
      { unfold Db.has_username. by apply bool_decide_eq_true_2. }
      split.
      + rewrite existsb_app. simpl. rewrite Hnew.
        by rewrite orb_true_r.
      + rewrite filter_snoc, Hnew, length_app, find_username_none by done.
        done. }
  destruct Hw1 as [Hex Hcount].
  rewrite (register_existing req2 _ u) by done.
  split; [done|]. split; [done|]. split; [done|]. split; [done|].
  exact Hcount.
Qed.

(** ** Logging in (C7) *)

(** C7: a POST to [/login] establishes a session, that of the user whose
    name was submitted, exactly when a user of the submitted name exists
    and the submitted password verifies against that user's hash; the
    login then changes nothing but the session.  Otherwise the session is
    left as it was; in particular a wrong password is answered with a
    redirect to the login form, "Invalid username or password" is added to
    the flashed messages, and the session is not touched. *)
Theorem login_iff_credentials request w :
  req_method request = POST →
  unique_usernames w →
  (session_established request w ↔ credentials_match request w)
  ∧ (credentials_match request w →
     users (login request w).2 = users w
     ∧ images (login request w).2 = images w
     ∧ uploads (login request w).2 = uploads w
     ∧ flashes (login request w).2 = flashes w)
  ∧ (¬ credentials_match request w →
     session (login request w).2 = session w
     ∧ (login request w).1 ≠ Returned (Redirect EpIndex))
  ∧ (∀ user p,
       user ∈ users w →
       form request !! "username" = Some (User.username user) →
       form request !! "password" = Some p →
       check_password_hash (User.password_hash user) p = false →
       (login request w).1 = Returned (Redirect EpLogin)
       ∧ flashes (login request w).2
         = flashes w ++ ["Invalid username or password"]
       ∧ session (login request w).2 = session w
       ∧ login request w
         = (Returned (Redirect EpLogin),
            add_flash "Invalid username or password" w)).
Proof.
  intros Hm Hnd.
  assert (Hdec : credentials_match request w ∨
            (¬ credentials_match request w
             ∧ session (login request w).2 = session w
             ∧ (login request w).1 ≠ Returned (Redirect EpIndex))).
  { unfold credentials_match, login, Db.user_by_username, check_password,
      login_user.
    unfold_M. rewrite Hm.
    destruct (form request !! "username") as [u|] eqn:Hu; simpl.
    2:{ right. split; [|done]. by intros (user & p & _ & ? & _). }
    destruct (List.find (Db.has_username u) (users w)) as [x|] eqn:Hfind.
    2:{ right. split; [|done]. intros (user & p & Hin & Heq & _).
        simplify_eq. by rewrite (find_username_unique _ user) in Hfind. }
    destruct (find_username_some _ _ _ Hfind) as [Hin <-].
    destruct (form request !! "password") as [p|] eqn:Hp; simpl.
    2:{ right. split; [|done]. by intros (user & p & _ & _ & ? & _). }
    destruct (check_password_hash (User.password_hash x) p) eqn:Hck.
    - left. by exists x, p.
    - right. split; [|done]. intros (user & p' & Hin' & Heq & Hp' & Hck').
      injection Heq as Heq. injection Hp' as <-.
      rewrite Heq, (find_username_unique _ user) in Hfind by done.
      injection Hfind as <-. congruence. }
  assert (Hgood : ∀ user p,
            user ∈ users w →
            form request !! "username" = Some (User.username user) →
            form request !! "password" = Some p →
            check_password_hash (User.password_hash user) p = true →
            login request w
            = (Returned (Redirect EpIndex),
               set_session (Some (User.id user)) w)).
  { intros user p Hin Hu Hp Hck.
    unfold login, Db.user_by_username, check_password, login_user.
    unfold_M. rewrite Hm, Hu, Hp.
    rewrite (find_username_unique _ user) by done.
    by rewrite Hck. }
  split; [split|split; [|split]].
  - intros (user & Hin & Hu & Hresp & Hsess).
    by destruct Hdec as [Hc | (_ & _ & Hne)].
  - intros (user & p & Hin & Hu & Hp & Hck). exists user.
    rewrite (Hgood user p) by done. done.
  - intros (user & p & Hin & Hu & Hp & Hck).
    rewrite (Hgood user p) by done. done.
  - intros Hno. by destruct Hdec as [Hc | (_ & ? & ?)].
  - intros user p Hin Hu Hp Hck.
    assert (Hbad : login request w
              = (Returned (Redirect EpLogin),
                 add_flash "Invalid username or password" w)).
    { unfold login, Db.user_by_username, check_password, login_user.
      unfold_M. rewrite Hm, Hu, Hp.
      rewrite (find_username_unique _ user) by done.
      by rewrite Hck. }
    rewrite Hbad. done.
Qed.

End Accounts.

(** A run of [register_twice]: [bob] registers, and registers again. *)
Lemma register_twice_witness :
  let w1 := (register (Sample.post_credentials "bob" "builder" "s1")
               Sample.w_alice).2 in
  register (Sample.post_credentials "bob" "other" "s2") w1
  = (Returned (Redirect EpRegister), add_flash "Username already exists!" w1)
  ∧ (register (Sample.post_credentials "bob" "other" "s2") w1).1
    = Returned (Redirect EpRegister)
  ∧ flashes (register (Sample.post_credentials "bob" "other" "s2") w1).2
    = flashes w1 ++ ["Username already exists!"]
  ∧ users (register (Sample.post_credentials "bob" "other" "s2") w1).2
    = users w1
  ∧ count_username "bob"
      (register (Sample.post_credentials "bob" "other" "s2") w1).2 = 1%nat.
Proof.
  refine (register_twice
            (Sample.post_credentials "bob" "builder" "s1")
            (Sample.post_credentials "bob" "other" "s2")
            Sample.w_alice "bob" "builder" _ _ _ _ _ _);
    try (vm_compute; reflexivity).
  apply (bool_decide_unpack _). vm_compute. exact I.
Defined.

(** A run of [login_iff_credentials], with nobody logged in: [alice]
    with her password, and [alice] with another one. *)
Lemma login_iff_credentials_witness :
  let w := set_session None Sample.w_alice in
  let good := Sample.post_credentials "alice" "wonderland" "" in
  let bad := Sample.post_credentials "alice" "looking-glass" "" in
  (session_established good w
   ∧ (login good w).1 = Returned (Redirect EpIndex)
   ∧ session (login good w).2 = Some (User.id Sample.alice)
   ∧ flashes (login good w).2 = flashes w)
  ∧ (¬ session_established bad w
     ∧ (login bad w).1 = Returned (Redirect EpLogin)
     ∧ flashes (login bad w).2
       = flashes w ++ ["Invalid username or password"]
     ∧ session (login bad w).2 = None).
Proof.
  cbv zeta.
  assert (Hnd : unique_usernames (set_session None Sample.w_alice)).
  { apply (bool_decide_unpack _). vm_compute. exact I. }
  assert (Hin : Sample.alice ∈ users (set_session None Sample.w_alice))
    by apply list_elem_of_here.
  split.
  - destruct (login_iff_credentials
                (Sample.post_credentials "alice" "wonderland" "")
                (set_session None Sample.w_alice) eq_refl Hnd)
      as ([_ Hest] & Hframe & _).
    assert (Hmatch : credentials_match
              (Sample.post_credentials "alice" "wonderland" "")
              (set_session None Sample.w_alice)).
    { exists Sample.alice, "wonderland".
      split; [exact Hin|]. repeat split; vm_compute; reflexivity. }
    split; [by apply Hest|].
    split; [vm_compute; reflexivity|].
    split; [vm_compute; reflexivity|].
    by apply Hframe.
  - destruct (login_iff_credentials
                (Sample.post_credentials "alice" "looking-glass" "")
                (set_session None Sample.w_alice) eq_refl Hnd)
      as ([Hcred _] & _ & _ & Hwrong).
    destruct (Hwrong Sample.alice "looking-glass" Hin)
      as (Hresp & Hfl & Hsess & Hall); try (vm_compute; reflexivity).
    split.
    + intros (user & _ & _ & Hidx & _). rewrite Hresp in Hidx. discriminate.
    + split; [exact Hresp|]. split; [exact Hfl|]. exact Hsess.
Defined.

Example login_right_password :
  login (Sample.post_credentials "alice" "wonderland" "") 
    (set_session None Sample.w_alice)
  = (Returned (Redirect EpIndex), Sample.w_alice).
Proof. vm_compute. reflexivity. Qed.

Example login_wrong_password :
  login (Sample.post_credentials "alice" "looking-glass" "")
    (set_session None Sample.w_alice)
  = (Returned (Redirect EpLogin),
     add_flash "Invalid username or password"
       (set_session None Sample.w_alice)).
Proof. vm_compute. reflexivity. Qed.

(** ** The listing (C8) *)

Section Listing.

#[local] Instance date_desc_total : Total Db.date_desc.
Proof. intros a b. unfold Db.date_desc. lia. Qed.

#[local] Instance date_desc_trans : Transitive Db.date_desc.
Proof. intros a b c. unfold Db.date_desc. lia. Qed.

(** C8, as the code has it: [GET /] lists every image record, once each,
    and no record comes before a newer one; records of equal
    [upload_date] are adjacent, in either order. *)
Theorem index_newest_first w :
  ∃ listing,
    index w = (Returned (RenderIndex listing), w)
    ∧ listing ≡ₚ images w
    ∧ StronglySorted Db.date_desc listing.
Proof.
  exists (Db.images_newest_first w). split; [done|].
  unfold Db.images_newest_first. split.
  - apply merge_sort_Permutation.
  - apply (StronglySorted_merge_sort _).
Qed.

End Listing.

(** C8 as stated fails: two records of the same [upload_date] are both
    listed, and the listing is then not strictly descending. *)
Lemma index_tie_not_strict :
  ∃ listing,
    index Scenario.w_tie = (Returned (RenderIndex listing), Scenario.w_tie)
    ∧ length listing = 2%nat
    ∧ ¬ Sorted strictly_newer listing.
Proof.
  eexists. split; [vm_compute; reflexivity|]. split; [done|].
  intros Hs. apply Sorted_inv in Hs as [_ Hhd].
  apply HdRel_inv in Hhd. unfold strictly_newer in Hhd. simpl in Hhd. lia.
Qed.

(** * Further properties of the application *)

(** ** File names and extensions *)

Section Extensions.

Lemma contains_app c (s1 s2 : string) :
  Py.contains c (s1 +:+ s2) = Py.contains c s1 || Py.contains c s2.
Proof.
  induction s1 as [|d s1 IH]; simpl; [done|].
  rewrite IH. by rewrite orb_assoc.
Qed.

Lemma rsplit1_aux_none c s :
  Py.rsplit1_aux c s = None ↔ Py.contains c s = false.
Proof.
  induction s as [|d s IH]; simpl; [done|].
  destruct (Py.rsplit1_aux c s) as [[h t]|].
  - split; [done|]. intros [_ Hs]%orb_false_iff.
    by apply IH in Hs.
  - destruct IH as [IH _]. rewrite IH by done. rewrite orb_false_r.
    by destruct (Ascii.eqb c d).
Qed.

Lemma rsplit1_aux_some c s h t :
  Py.rsplit1_aux c s = Some (h, t) ↔
  s = h +:+ String c t ∧ Py.contains c t = false.
Proof.
  revert h. induction s as [|d s IH]; intros h; simpl.
  - split; [done|]. intros [Heq _]. by destruct h.
  - destruct (Py.rsplit1_aux c s) as [[h' t']|] eqn:Haux.
    + split.
      * intros [= <- <-]. destruct (IH h') as [[-> Ht] _]; done.
      * intros [Heq Ht]. destruct h as [|d' h]; simpl in Heq.
        -- injection Heq as -> ->.
           apply rsplit1_aux_none in Ht. congruence.
        -- injection Heq as -> Hs.
           destruct (IH h) as [_ IH2].
           specialize (IH2 (conj Hs Ht)). by injection IH2 as -> ->.
    + apply rsplit1_aux_none in Haux. split.
      * destruct (Ascii.eqb c d) eqn:Hcd; [|done].
        apply Ascii.eqb_eq in Hcd as <-. by intros [= <- <-].
      * intros [Heq Ht]. destruct h as [|d' h]; simpl in Heq.
        -- injection Heq as -> ->. by rewrite Ascii.eqb_refl.
        -- injection Heq as -> ->.
           rewrite contains_app in Haux. simpl in Haux.
           rewrite Ascii.eqb_refl in Haux. simpl in Haux.
           by rewrite orb_true_r in Haux.
Qed.

(** [rsplit(c, 1)] yields two parts exactly when the string is the first
    part, the separator and a second part free of the separator: the split
    is at the last occurrence, and joining the parts gives the string
    back. *)
Theorem rsplit1_two_parts c s h t :
  Py.rsplit1 c s = [h; t] ↔
  s = h +:+ String c t ∧ Py.contains c t = false.
Proof.
  rewrite <- rsplit1_aux_some. unfold Py.rsplit1.
  destruct (Py.rsplit1_aux c s) as [[h' t']|]; [|done].
  split; by intros [= -> ->].
Qed.

Lemma lower_char_idemp c : Py.lower_char (Py.lower_char c) = Py.lower_char c.
Proof.
  unfold Py.lower_char.
  destruct ((65 <=? nat_of_ascii c)%nat && (nat_of_ascii c <=? 90)%nat)
    eqn:Hup.
  - apply andb_true_iff in Hup as [H1%Nat.leb_le H2%Nat.leb_le].
    rewrite nat_ascii_embedding by lia.
    assert (Hgt : (nat_of_ascii c + 32 <=? 90)%nat = false)
      by (apply Nat.leb_gt; lia).
    by rewrite Hgt, andb_false_r.
  - by rewrite Hup.
Qed.

Lemma lower_idemp s : Py.lower (Py.lower s) = Py.lower s.
Proof.
  induction s as [|c s IH]; simpl; [done|].
  by rewrite lower_char_idemp, IH.
Qed.

Lemma lower_char_dot c :
  Ascii.eqb "." (Py.lower_char c) = Ascii.eqb "." c.
Proof.
  unfold Py.lower_char.
  destruct ((65 <=? nat_of_ascii c)%nat && (nat_of_ascii c <=? 90)%nat)
    eqn:Hup; [|done].
  apply andb_true_iff in Hup as [H1%Nat.leb_le H2%Nat.leb_le].
  transitivity false.
  - apply Ascii.eqb_neq. intros Heq.
    apply (f_equal nat_of_ascii) in Heq.
    rewrite nat_ascii_embedding in Heq by lia.
    change (nat_of_ascii ".") with 46%nat in Heq. lia.
  - symmetry. apply Ascii.eqb_neq. intros <-.
    change (nat_of_ascii ".") with 46%nat in H1. lia.
Qed.

Lemma contains_dot_lower s :
  Py.contains "." (Py.lower s) = Py.contains "." s.
Proof.
  induction s as [|c s IH]; [done|].
  cbn [Py.lower Py.contains]. by rewrite lower_char_dot, IH.
Qed.

Lemma allowed_file_split h e :
  Py.contains "." e = false →
  allowed_file (h +:+ String "." e)
  = bool_decide (Py.lower e ∈ ALLOWED_EXTENSIONS).
Proof.
  intros He. unfold allowed_file.
  rewrite contains_app. simpl. rewrite orb_true_r. simpl.
  unfold Py.rsplit1.
  by rewrite (proj2 (rsplit1_aux_some "." (h +:+ String "." e) h e)).
Qed.

(** [allowed_file] accepts exactly the names whose part after the last dot
    is, in lower case, one of the allowed extensions; a name without a dot
    is refused. *)
Theorem allowed_file_iff name :
  allowed_file name = true ↔
  ∃ h e, name = h +:+ String "." e
         ∧ Py.contains "." e = false
         ∧ Py.lower e ∈ ALLOWED_EXTENSIONS.
Proof.
  split.
  - unfold allowed_file. intros [Hdot Hext]%andb_true_iff.
    destruct (Py.rsplit1_aux "." name) as [[h e]|] eqn:Haux.
    + exists h, e. apply rsplit1_aux_some in Haux as [-> He].
      split; [done|]. split; [done|].
      unfold Py.rsplit1 in Hext.
      rewrite (proj2 (rsplit1_aux_some "." _ h e)) in Hext by done.
      simpl in Hext. by apply bool_decide_eq_true_1 in Hext.
    + apply rsplit1_aux_none in Haux. congruence.
  - intros (h & e & -> & He & Hin).
    rewrite allowed_file_split by done. by apply bool_decide_eq_true_2.
Qed.

(** The test looks at nothing but the last extension, and at that without
    regard to case: whatever comes before the last dot, and whether the
    extension is written in upper or lower case, the answer is the same. *)
Theorem allowed_file_case_insensitive h h' e :
  Py.contains "." e = false →
  allowed_file (h +:+ String "." e)
  = allowed_file (h' +:+ String "." (Py.lower e)).
Proof.
  intros He.
  rewrite (allowed_file_split h e) by done.
  rewrite (allowed_file_split h' (Py.lower e))
    by (by rewrite contains_dot_lower).
  by rewrite lower_idemp.
Qed.

End Extensions.

(** A run of [allowed_file_case_insensitive]: [holiday.JPeG] under two
    different stems. *)
Lemma allowed_file_case_insensitive_witness :
  allowed_file ("my.holiday" +:+ String "." "JPeG")
  = allowed_file ("x" +:+ String "." (Py.lower "JPeG")).
Proof.
  apply (allowed_file_case_insensitive "my.holiday" "x" "JPeG").
  reflexivity.
Defined.

(** ** Thumbnails are best effort *)

Section Thumbnails.
Context `{Ext : Externals}.

(** [create_thumbnail] never raises, whatever the two paths and the state
    of the folder: it returns, and it leaves the tables, the session, the
    flashed messages and every file but the one at the thumbnail's path as
    they were. *)
Theorem create_thumbnail_best_effort image_path thumbnail_path w :
  ∃ w',
    create_thumbnail image_path thumbnail_path w = (Returned (), w')
    ∧ users w' = users w ∧ images w' = images w
    ∧ session w' = session w ∧ flashes w' = flashes w
    ∧ ∀ k, k ≠ thumbnail_path → uploads w' !! k = uploads w !! k.
Proof.
  exists (after_thumbnail image_path thumbnail_path w).
  split; [apply create_thumbnail_returns|].
  apply after_thumbnail_frame.
Qed.

(** A source that is missing from the folder, or that cannot be opened as
    an image, costs one line on standard output and nothing else: no file
    is created or changed, the thumbnail's path included. *)
Theorem create_thumbnail_unreadable image_path thumbnail_path w :
  (uploads w !! image_path = None
   ∨ ∃ src, uploads w !! image_path = Some src ∧ PIL_open src = None) →
  create_thumbnail image_path thumbnail_path w
  = (Returned (), add_stdout "Error creating thumbnail:" w).
Proof.
  unfold create_thumbnail, Image_open. unfold_M.
  intros [Hnone | (src & Hsrc & Hopen)].
  - by rewrite Hnone.
  - by rewrite Hsrc, Hopen.
Qed.

End Thumbnails.

(** A run of [create_thumbnail_unreadable]: no file of that name. *)
Lemma create_thumbnail_unreadable_witness :
  create_thumbnail "ghost.png" "thumb_ghost.png" Sample.w_alice
  = (Returned (), add_stdout "Error creating thumbnail:" Sample.w_alice).
Proof.
  apply (create_thumbnail_unreadable "ghost.png" "thumb_ghost.png"
           Sample.w_alice).
  left. reflexivity.
Defined.

(** ** The login gate and the checks on the file part *)

Section Gate.
Context `{Ext : Externals}.

Lemma upload_gate_closed request w :
  current_user w = None →
  upload request w
  = (Returned (Redirect EpLogin),
     add_flash "Please log in to access this page." w).
Proof.
  intros Hnone. unfold upload, login_required. unfold_M. by rewrite Hnone.
Qed.

Lemma upload_empty_name request w user file :
  current_user w = Some user →
  req_method request = POST →
  files request !! "image" = Some file →
  FileStorage.filename file = "" →
  upload request w
  = (Returned (Redirect EpUpload), add_flash "No selected file" w).
Proof.
  intros Huser Hm Hfile Hname. unfold upload, login_required. unfold_M.
  by rewrite Huser, Hm, Hfile, Hname.
Qed.

(** Without a logged-in user, [/upload] and [/logout] answer with a
    redirect to the login page whatever the request carries: the body of a
    POST is not looked at, nothing is written to the folder or the
    tables. *)
Theorem login_required_gate request w :
  current_user w = None →
  upload request w
  = (Returned (Redirect EpLogin),
     add_flash "Please log in to access this page." w)
  ∧ logout w
    = (Returned (Redirect EpLogin),
       add_flash "Please log in to access this page." w).
Proof.
  intros Hnone. unfold upload, logout, login_required. unfold_M.
  by rewrite Hnone.
Qed.


(** [logout] of a logged-in user clears the session and nothing else, and
    the gate is closed from then on: the next [/upload] is sent to the
    login page. *)
Theorem logout_closes_gate w user request :
  current_user w = Some user →
  logout w = (Returned (Redirect EpIndex), set_session None w)
  ∧ current_user (logout w).2 = None
  ∧ (upload request (logout w).2).1 = Returned (Redirect EpLogin).
Proof.
  intros Huser.
  assert (Hout : logout w = (Returned (Redirect EpIndex), set_session None w)).
  { unfold logout, login_required, logout_user. unfold_M. by rewrite Huser. }
  rewrite Hout. split; [done|]. split; [done|]. cbn [snd].
  by rewrite (upload_gate_closed request (set_session None w) eq_refl).
Qed.

End Gate.

(** A run of [login_required_gate]: [alice]'s store with nobody logged
    in. *)
Lemma login_required_gate_witness :
  let w := set_session None Sample.w_alice in
  let request := Sample.post_upload "cat.gif" "GIF89a-cat" None 1 in
  upload request w
  = (Returned (Redirect EpLogin),
     add_flash "Please log in to access this page." w)
  ∧ logout w
    = (Returned (Redirect EpLogin),
       add_flash "Please log in to access this page." w).
Proof.
  apply (login_required_gate
           (Sample.post_upload "cat.gif" "GIF89a-cat" None 1)
           (set_session None Sample.w_alice)).
  reflexivity.
Defined.


(** A run of [logout_closes_gate]: [alice] logs out. *)
Lemma logout_closes_gate_witness :
  let request := Sample.post_upload "cat.gif" "GIF89a-cat" None 1 in
  logout Sample.w_alice
  = (Returned (Redirect EpIndex), set_session None Sample.w_alice)
  ∧ current_user (logout Sample.w_alice).2 = None
  ∧ (upload request (logout Sample.w_alice).2).1
    = Returned (Redirect EpLogin).
Proof.
  apply (logout_closes_gate Sample.w_alice Sample.alice
           (Sample.post_upload "cat.gif" "GIF89a-cat" None 1)).
  reflexivity.
Defined.

(** ** Accounts: missing fields, and registering before logging in *)

Section AccountFlows.
Context `{Ext : Externals}.

Lemma find_user_id_unique (l : list User.t) user :
  NoDup (User.id <$> l) → user ∈ l →
  List.find (λ x, bool_decide (User.id x = User.id user)) l = Some user.
Proof.
  induction l as [|x l IH]; simpl; intros Hnd Hin.
  - by apply elem_of_nil in Hin.
  - apply NoDup_cons in Hnd as [Hx Hnd].
    apply elem_of_cons in Hin as [-> | Hin].
    + by rewrite bool_decide_eq_true_2.
    + rewrite bool_decide_eq_false_2; [by apply IH|].
      intros Heq. apply Hx. rewrite Heq. by apply list_elem_of_fmap_2.
Qed.


(** A registration form that lacks a field is not answered with a message:
    without a username the insert is refused by the store and [register]
    raises [IntegrityError]; without a password (and the name not yet
    taken) the hasher raises [AttributeError].  Either way no user is
    created and nothing is flashed. *)
Theorem register_missing_fields request w :
  req_method request = POST →
  (∀ p, form request !! "username" = None →
        form request !! "password" = Some p →
        register request w = (Raised IntegrityError, w))
  ∧ (form request !! "password" = None →
     Db.user_by_username (form request !! "username") w = None →
     register request w = (Raised AttributeError, w)).
Proof.
  intros Hm. unfold register, set_password, Db.add_user. unfold_M.
  rewrite Hm. split.
  - by intros p -> ->.
  - by intros -> ->.
Qed.


(** [login] does not tell an unknown name from a wrong password: the two
    requests get the same response and leave the same world. *)
Theorem login_unknown_like_wrong_password unknown wrong w user p :
  NoDup (User.username <$> users w) →
  req_method unknown = POST →
  Db.user_by_username (form unknown !! "username") w = None →
  req_method wrong = POST →
  user ∈ users w →
  form wrong !! "username" = Some (User.username user) →
  form wrong !! "password" = Some p →
  check_password_hash (User.password_hash user) p = false →
  login unknown w = login wrong w.
Proof.
  intros Hnd Hm Hnone Hm' Hin Hu Hp Hck.
  unfold login, check_password. unfold_M.
  rewrite Hm, Hm', Hnone, Hu, Hp. unfold Db.user_by_username.
  rewrite (find_username_unique _ user) by done.
  by rewrite Hck.
Qed.

(** After a login, uploads are credited to the user who logged in: the
    gate admits that user, and the record of an accepted upload carries the
    user's id and the time of the request. *)
Theorem login_then_upload attempt request w user p file :
  NoDup (User.username <$> users w) →
  NoDup (User.id <$> users w) →
  req_method attempt = POST →
  user ∈ users w →
  form attempt !! "username" = Some (User.username user) →
  form attempt !! "password" = Some p →
  check_password_hash (User.password_hash user) p = true →
  req_method request = POST →
  files request !! "image" = Some file →
  allowed_file (FileStorage.filename file) = true →
  slug_taken (form request !! "custom_slug") w = false →
  let w1 := (login attempt w).2 in
  current_user w1 = Some user
  ∧ ∃ row w2,
      upload request w1
      = (Returned (Redirect (EpImageDetail (ImageModel.id row))), w2)
      ∧ images w2 = images w ++ [row]
      ∧ ImageModel.user_id row = User.id user
      ∧ ImageModel.upload_date row = utcnow request.
Proof.
  intros Hnd Hids Hm Hin Hu Hp Hck Hm' Hfile Hallowed Hfree. cbv zeta.
  assert (Hlogin : login attempt w
            = (Returned (Redirect EpIndex),
               set_session (Some (User.id user)) w)).
  { unfold login, Db.user_by_username, check_password, login_user.
    unfold_M. rewrite Hm, Hu, Hp.
    rewrite (find_username_unique _ user) by done. by rewrite Hck. }
  rewrite Hlogin. cbn [snd].
  assert (Hcur : current_user (set_session (Some (User.id user)) w)
                 = Some user).
  { unfold current_user, load_user, Db.user_get. simpl.
    by apply find_user_id_unique. }
  split; [done|].
  exists (new_row request file user (set_session (Some (User.id user)) w)).
  eexists. split; [by apply upload_succeeds|].
  destruct (after_writes_frame file (set_session (Some (User.id user)) w))
    as (_ & Hi & _).
  simpl. by rewrite Hi.
Qed.

End AccountFlows.

(** A run of [register_missing_fields]: a form with neither field. *)
Lemma register_missing_fields_witness :
  let request := mkRequest POST ∅ ∅ 0 "" in
  (∀ p, form request !! "username" = None →
        form request !! "password" = Some p →
        register request Sample.w_alice = (Raised IntegrityError, Sample.w_alice))
  ∧ (form request !! "password" = None →
     Db.user_by_username (form request !! "username") Sample.w_alice = None →
     register request Sample.w_alice = (Raised AttributeError, Sample.w_alice)).
Proof.
  apply (register_missing_fields (mkRequest POST ∅ ∅ 0 "") Sample.w_alice).
  reflexivity.
Defined.

Example register_without_password :
  register (mkRequest POST {[ "username" := "bob" ]} ∅ 0 "") Sample.w_alice
  = (Raised AttributeError, Sample.w_alice).
Proof. vm_compute. reflexivity. Qed.


(** A run of [login_unknown_like_wrong_password]: [mallory] is not
    registered, and [alice]'s password is not [guess]. *)
Lemma login_unknown_like_wrong_password_witness :
  login (Sample.post_credentials "mallory" "guess" "") Sample.w_alice
  = login (Sample.post_credentials "alice" "guess" "") Sample.w_alice.
Proof.
  refine (login_unknown_like_wrong_password
            (Sample.post_credentials "mallory" "guess" "")
            (Sample.post_credentials "alice" "guess" "")
            Sample.w_alice Sample.alice "guess" _ _ _ _ _ _ _ _);
    try (vm_compute; reflexivity).
  - apply (bool_decide_unpack _). vm_compute. exact I.
  - apply list_elem_of_here.
Defined.

(** A run of [login_then_upload]: [alice] logs in and uploads
    [cat.gif]. *)
Lemma login_then_upload_witness :
  let w := set_session None Sample.w_alice in
  let w1 := (login (Sample.post_credentials "alice" "wonderland" "") w).2 in
  let request := Sample.post_upload "cat.gif" "GIF89a-cat" None 42 in
  current_user w1 = Some Sample.alice
  ∧ ∃ row w2,
      upload request w1
      = (Returned (Redirect (EpImageDetail (ImageModel.id row))), w2)
      ∧ images w2 = images w ++ [row]
      ∧ ImageModel.user_id row = User.id Sample.alice
      ∧ ImageModel.upload_date row = utcnow request.
Proof.
  refine (login_then_upload
            (Sample.post_credentials "alice" "wonderland" "")
            (Sample.post_upload "cat.gif" "GIF89a-cat" None 42)
            (set_session None Sample.w_alice) Sample.alice "wonderland"
            (FileStorage.mk "cat.gif" "GIF89a-cat") _ _ _ _ _ _ _ _ _ _ _);
    try (vm_compute; reflexivity).
  - apply (bool_decide_unpack _). vm_compute. exact I.
  - apply (bool_decide_unpack _). vm_compute. exact I.
  - apply list_elem_of_here.
Defined.

(** ** What an upload leaves behind *)

Section UploadEffects.
Context `{Ext : Externals}.

Lemma next_id_above (ids : list nat) x :
  x ∈ ids → (x < Db.next_id ids)%nat.
Proof.
  unfold Db.next_id. induction ids as [|y ids IH]; simpl.
  - by intros ?%elem_of_nil.
  - intros [-> | Hin]%elem_of_cons; [lia|]. apply IH in Hin. lia.
Qed.



(** When the thumbnail can be generated, the name the record gives for it
    is served by [/uploads/<filename>] with the encoded thumbnail. *)
Theorem upload_thumbnail_served request w file user b :
  req_method request = POST →
  files request !! "image" = Some file →
  allowed_file (FileStorage.filename file) = true →
  current_user w = Some user →
  slug_taken (form request !! "custom_slug") w = false →
  (let filename := secure_filename (FileStorage.filename file) in
   thumbnail_encoded (FileStorage.stream file) ("thumb_" +:+ filename)
     (uploads w !! ("thumb_" +:+ filename)) = Some b) →
  ∃ row w' name,
    upload request w
    = (Returned (Redirect (EpImageDetail (ImageModel.id row))), w')
    ∧ ImageModel.thumbnail row = Some name
    ∧ uploaded_file name w' = (Returned (SendFile b), w').
Proof.
  intros Hm Hfile Hallowed Huser Hfree Henc. cbv zeta in Henc.
  exists (new_row request file user w). eexists. eexists.
  split; [by apply upload_succeeds|]. split; [done|].
  unfold uploaded_file, send_from_directory. unfold_M. simpl.
  unfold after_writes.
  set (f := secure_filename (FileStorage.filename file)) in *.
  rewrite (after_thumbnail_saved f ("thumb_" +:+ f) _
             (FileStorage.stream file) b).
  - simpl. by rewrite lookup_insert_eq.
  - simpl. by rewrite lookup_insert_eq.
  - simpl. by rewrite lookup_insert_ne by (symmetry; apply thumb_name_ne).
Qed.

(** When the uploaded bytes cannot be opened as an image and no file of
    the thumbnail's name was in the folder, the record still names a
    thumbnail, and [/uploads/<filename>] answers 404 for that name. *)
Theorem upload_thumbnail_dangling request w file user :
  req_method request = POST →
  files request !! "image" = Some file →
  allowed_file (FileStorage.filename file) = true →
  current_user w = Some user →
  slug_taken (form request !! "custom_slug") w = false →
  PIL_open (FileStorage.stream file) = None →
  uploads w !! ("thumb_" +:+ secure_filename (FileStorage.filename file))
  = None →
  ∃ row w' name,
    upload request w
    = (Returned (Redirect (EpImageDetail (ImageModel.id row))), w')
    ∧ ImageModel.thumbnail row = Some name
    ∧ uploaded_file name w' = (Returned NotFound, w').
Proof.
  intros Hm Hfile Hallowed Huser Hfree Hopen Hnone.
  exists (new_row request file user w). eexists. eexists.
  split; [by apply upload_succeeds|]. split; [done|].
  unfold uploaded_file, send_from_directory. unfold_M. simpl.
  unfold after_writes.
  set (f := secure_filename (FileStorage.filename file)) in *.
  rewrite (after_thumbnail_undecodable f ("thumb_" +:+ f) _
             (FileStorage.stream file)).
  - simpl. rewrite lookup_insert_ne by (symmetry; apply thumb_name_ne).
    by rewrite Hnone.
  - simpl. by rewrite lookup_insert_eq.
  - done.
Qed.

(** Originals and thumbnails share one folder.  If an earlier image was
    stored under the very name the new upload's thumbnail gets, the
    thumbnail is written over it: the earlier record's file name then
    serves the thumbnail of the new upload, whatever becomes of the new
    record. *)
Theorem upload_thumbnail_clobbers request w file user old b :
  req_method request = POST →
  files request !! "image" = Some file →
  allowed_file (FileStorage.filename file) = true →
  current_user w = Some user →
  old ∈ images w →
  ImageModel.filename old
  = "thumb_" +:+ secure_filename (FileStorage.filename file) →
  thumbnail_encoded (FileStorage.stream file) (ImageModel.filename old)
    (uploads w !! ImageModel.filename old) = Some b →
  let w' := (upload request w).2 in
  old ∈ images w'
  ∧ uploaded_file (ImageModel.filename old) w' = (Returned (SendFile b), w').
Proof.
  intros Hm Hfile Hallowed Huser Hold Hname Henc. cbv zeta.
  destruct (upload_accepted_effects request w file user)
    as [Hup Himg]; [done..|].
  split.
  - destruct Himg as [-> | ->]; [done|]. apply elem_of_app. by left.
  - unfold uploaded_file, send_from_directory. unfold_M.
    rewrite Hup. unfold after_writes. rewrite Hname in *.
    set (f := secure_filename (FileStorage.filename file)) in *.
    rewrite (after_thumbnail_saved f ("thumb_" +:+ f) _
               (FileStorage.stream file) b).
    + simpl. by rewrite lookup_insert_eq.
    + simpl. by rewrite lookup_insert_eq.
    + simpl. by rewrite lookup_insert_ne by (symmetry; apply thumb_name_ne).
Qed.

(** The file is written before the slug is looked at.  An upload whose
    slug some record holds creates no record, whether it is turned away
    with the message or the insert raises, and the file stays in the
    folder all the same, under a name no new record refers to. *)
Theorem upload_refused_leaves_file request w file user :
  req_method request = POST →
  files request !! "image" = Some file →
  allowed_file (FileStorage.filename file) = true →
  current_user w = Some user →
  slug_taken (form request !! "custom_slug") w = true →
  let r := upload request w in
  (r.1 = Returned (Redirect EpUpload) ∨ r.1 = Raised IntegrityError)
  ∧ images r.2 = images w
  ∧ uploads r.2 !! secure_filename (FileStorage.filename file)
    = Some (FileStorage.stream file).
Proof.
  intros Hm Hfile Hallowed Huser Htaken. cbv zeta.
  rewrite (upload_accepted request w file user) by done. cbv zeta.
  destruct (after_writes_frame file w) as (_ & Hi & _).
  rewrite Htaken.
  destruct (slug_in_use _ _); simpl; rewrite ?Hi;
    (split; [by auto|]); (split; [done|]); apply after_writes_original.
Qed.

(** An upload made at a time later than every stored upload date comes
    first in the listing of [GET /]. *)
Theorem upload_listed_first request w file user :
  req_method request = POST →
  files request !! "image" = Some file →
  allowed_file (FileStorage.filename file) = true →
  current_user w = Some user →
  slug_taken (form request !! "custom_slug") w = false →
  (∀ img, img ∈ images w → (ImageModel.upload_date img < utcnow request)%Z) →
  ∃ row w' rest,
    upload request w
    = (Returned (Redirect (EpImageDetail (ImageModel.id row))), w')
    ∧ index w' = (Returned (RenderIndex (row :: rest)), w')
    ∧ rest ≡ₚ images w.
Proof.
  intros Hm Hfile Hallowed Huser Hfree Hlater.
  set (row := new_row request file user w).
  destruct (after_writes_frame file w) as (_ & Hi & _).
  set (w' := add_flash "Image uploaded successfully!"
               (set_images (λ l, l ++ [row]) (after_writes file w))).
  assert (Hnf : Db.images_newest_first w'
                = merge_sort Db.date_desc (images w ++ [row])).
  { unfold Db.images_newest_first. simpl. by rewrite Hi. }
  pose proof (merge_sort_Permutation Db.date_desc (images w ++ [row]))
    as Hperm.
  pose proof (@StronglySorted_merge_sort _ Db.date_desc _
                date_desc_trans date_desc_total (images w ++ [row]))
    as Hsorted.
  assert (Hrow : row ∈ merge_sort Db.date_desc (images w ++ [row])).
  { rewrite Hperm. apply elem_of_app. right. apply list_elem_of_here. }
  destruct (merge_sort Db.date_desc (images w ++ [row])) as [|h rest].
  { by apply elem_of_nil in Hrow. }
  assert (Hh : h = row).
  { apply elem_of_cons in Hrow as [-> | Hin]; [done|].
    apply StronglySorted_inv in Hsorted as [_ Hall].
    rewrite Forall_forall in Hall. specialize (Hall _ Hin).
    unfold Db.date_desc in Hall.
    assert (Hhin : h ∈ images w ++ [row]).
    { rewrite <- Hperm. apply list_elem_of_here. }
    apply elem_of_app in Hhin as [Hold | Hnew].
    - specialize (Hlater _ Hold). simpl in Hall. lia.
    - by apply list_elem_of_singleton in Hnew. }
  subst h. exists row, w', rest.
  split; [by apply upload_succeeds|]. split.
  - unfold index. unfold_M. by rewrite Hnf.
  - rewrite (Permutation_app_comm (images w) [row]) in Hperm. simpl in Hperm.
    by apply Permutation_cons_inv in Hperm.
Qed.

End UploadEffects.


(** A run of [upload_thumbnail_served]: [cat.gif] and its thumbnail. *)
Lemma upload_thumbnail_served_witness :
  ∃ row w' name,
    upload (Sample.post_upload "cat.gif" "GIF89a-cat" None 1) Sample.w_alice
    = (Returned (Redirect (EpImageDetail (ImageModel.id row))), w')
    ∧ ImageModel.thumbnail row = Some name
    ∧ uploaded_file name w'
      = (Returned (SendFile "thumbnail of GIF89a-cat"), w').
Proof.
  refine (upload_thumbnail_served
            (Sample.post_upload "cat.gif" "GIF89a-cat" None 1) Sample.w_alice
            (FileStorage.mk "cat.gif" "GIF89a-cat") Sample.alice
            "thumbnail of GIF89a-cat" _ _ _ _ _ _);
    vm_compute; reflexivity.
Defined.

(** A run of [upload_thumbnail_dangling]: an empty [broken.png]. *)
Lemma upload_thumbnail_dangling_witness :
  ∃ row w' name,
    upload (Sample.post_upload "broken.png" "" None 7) Sample.w_alice
    = (Returned (Redirect (EpImageDetail (ImageModel.id row))), w')
    ∧ ImageModel.thumbnail row = Some name
    ∧ uploaded_file name w' = (Returned NotFound, w').
Proof.
  refine (upload_thumbnail_dangling
            (Sample.post_upload "broken.png" "" None 7) Sample.w_alice
            (FileStorage.mk "broken.png" "") Sample.alice _ _ _ _ _ _ _);
    vm_compute; reflexivity.
Defined.

(** A run of [upload_thumbnail_clobbers]: [cat.gif] is uploaded to a
    folder that holds an original named [thumb_cat.gif]. *)
Lemma upload_thumbnail_clobbers_witness :
  let request := Sample.post_upload "cat.gif" "GIF89a-cat" None 9 in
  let w' := (upload request Cases.w_poster).2 in
  Cases.poster_row ∈ images w'
  ∧ uploaded_file (ImageModel.filename Cases.poster_row) w'
    = (Returned (SendFile "thumbnail of GIF89a-cat"), w').
Proof.
  refine (upload_thumbnail_clobbers
            (Sample.post_upload "cat.gif" "GIF89a-cat" None 9) Cases.w_poster
            (FileStorage.mk "cat.gif" "GIF89a-cat") Sample.alice
            Cases.poster_row "thumbnail of GIF89a-cat" _ _ _ _ _ _ _);
    try (vm_compute; reflexivity).
  apply list_elem_of_here.
Defined.

(** A run of [upload_refused_leaves_file]: [dog.gif] asks for the slug
    [kitty], which is taken. *)
Lemma upload_refused_leaves_file_witness :
  let r := upload (Sample.post_upload "dog.gif" "GIF89a-dog" (Some "kitty") 2)
             Scenario.w_kitty in
  (r.1 = Returned (Redirect EpUpload) ∨ r.1 = Raised IntegrityError)
  ∧ images r.2 = images Scenario.w_kitty
  ∧ uploads r.2 !! "dog.gif" = Some "GIF89a-dog".
Proof.
  refine (upload_refused_leaves_file
            (Sample.post_upload "dog.gif" "GIF89a-dog" (Some "kitty") 2)
            Scenario.w_kitty (FileStorage.mk "dog.gif" "GIF89a-dog")
            Sample.alice _ _ _ _ _);
    vm_compute; reflexivity.
Defined.

(** A run of [upload_listed_first]: [dog.gif] is uploaded after
    [cat.gif]. *)
Lemma upload_listed_first_witness :
  ∃ row w' rest,
    upload (Sample.post_upload "dog.gif" "GIF89a-dog" None 9) Scenario.w_cat
    = (Returned (Redirect (EpImageDetail (ImageModel.id row))), w')
    ∧ index w' = (Returned (RenderIndex (row :: rest)), w')
    ∧ rest ≡ₚ images Scenario.w_cat.
Proof.
  refine (upload_listed_first
            (Sample.post_upload "dog.gif" "GIF89a-dog" None 9) Scenario.w_cat
            (FileStorage.mk "dog.gif" "GIF89a-dog") Sample.alice
            _ _ _ _ _ _);
    try (vm_compute; reflexivity).
  intros img Hin. apply list_elem_of_singleton in Hin as ->.
  vm_compute. reflexivity.
Defined.

(** ** What every request keeps *)

Section Invariants.
Context `{Ext : Externals}.

Lemma register_tables request w :
  keeps_tables w (register request w).2 ∨ adds_user w (register request w).2.
Proof.
  unfold register, Db.user_by_username, set_password, Db.add_user.
  unfold_M.
  destruct (req_method request); [by left|].
  destruct (form request !! "username") as [u|]; simpl.
  2:{ left. by destruct (form request !! "password"). }
  destruct (List.find (Db.has_username u) (users w)) as [x|] eqn:Hfind;
    [by left|].
  destruct (form request !! "password") as [p|]; simpl; [|by left].
  rewrite (existsb_find _ (users w)), Hfind. simpl.
  right. split; [done|]. eexists. split; [done|]. split; [done|].
  simpl. intros Hin.
  apply list_elem_of_fmap in Hin as (y & Hy & Hin).
  apply list_elem_of_In in Hin. apply (find_none _ _ Hfind) in Hin.
  unfold Db.has_username in Hin. by apply bool_decide_eq_false_1 in Hin.
Qed.

Lemma current_user_registered w user :
  current_user w = Some user → user ∈ users w.
Proof.
  unfold current_user, load_user, Db.user_get.
  destruct (session w); [|done].
  intros [Hin _]%find_some. by apply list_elem_of_In.
Qed.

Lemma upload_tables request w :
  keeps_tables w (upload request w).2 ∨ adds_image w (upload request w).2.
Proof.
  destruct (current_user w) as [user|] eqn:Huser.
  2:{ left. by rewrite (upload_gate_closed request w Huser). }
  destruct (req_method request) eqn:Hm.
  { left. unfold upload, login_required. unfold_M. by rewrite Huser, Hm. }
  destruct (files request !! "image") as [file|] eqn:Hfile.
  2:{ left. unfold upload, login_required. unfold_M.
      by rewrite Huser, Hm, Hfile. }
  destruct (decide (FileStorage.filename file = "")) as [Hempty|Hne].
  { left. by rewrite (upload_empty_name request w user file). }
  destruct (allowed_file (FileStorage.filename file)) eqn:Hallowed.
  2:{ left. by rewrite (upload_disallowed request w file user). }
  rewrite (upload_accepted request w file user) by done. cbv zeta.
  destruct (after_writes_frame file w) as (Hu & Hi & _).
  destruct (slug_in_use _ _); [by left|].
  destruct (slug_taken _ _) eqn:Htaken; [by left|].
  right. split; [done|].
  exists (new_row request file user w), user. simpl. rewrite Hi.
  repeat split; try done. by apply current_user_registered.
Qed.

Lemma login_tables request w :
  keeps_tables w (login request w).2
  ∧ (session (login request w).2 = session w
     ∨ ∃ user, user ∈ users w
         ∧ session (login request w).2 = Some (User.id user)).
Proof.
  unfold keeps_tables, login, Db.user_by_username, check_password, login_user.
  unfold_M.
  destruct (req_method request); [by auto|].
  destruct (form request !! "username") as [u|]; simpl; [|by auto].
  destruct (List.find (Db.has_username u) (users w)) as [x|] eqn:Hfind;
    [|by auto].
  destruct (form request !! "password") as [p|]; simpl; [|by auto].
  destruct (check_password_hash _ _); simpl; [|by auto].
  split; [done|]. right. exists x. split; [|done].
  by apply find_username_some in Hfind as [? _].
Qed.

Lemma logout_tables w :
  keeps_tables w (logout w).2
  ∧ (session (logout w).2 = session w ∨ session (logout w).2 = None).
Proof.
  unfold keeps_tables, logout, login_required, logout_user. unfold_M.
  destruct (current_user w); by auto.
Qed.

Lemma reads_keep_world r w :
  match r with
  | GetIndex | GetImageBySlug _ | GetUploadedFile _ | GetImageDetail _ =>
      ∃ response, dispatch r w = (Returned response, w)
  | _ => True
  end.
Proof.
  destruct r; simpl; try done.
  - by eexists.
  - unfold image_by_slug, send_from_directory. unfold_M.
    destruct (Db.image_by_slug custom_slug w) as [img|]; [|by eexists].
    destruct (uploads w !! ImageModel.filename img); by eexists.
  - unfold uploaded_file, send_from_directory. unfold_M.
    destruct (uploads w !! filename); by eexists.
  - unfold image_detail. unfold_M.
    destruct (Db.image_get image_id w); by eexists.
Qed.

Lemma register_session request w :
  session (register request w).2 = session w.
Proof.
  unfold register, Db.user_by_username, set_password, Db.add_user.
  unfold_M.
  destruct (req_method request); [done|].
  destruct (form request !! "username") as [u|]; simpl.
  2:{ by destruct (form request !! "password"). }
  destruct (List.find (Db.has_username u) (users w)); [done|].
  destruct (form request !! "password"); simpl; [|done].
  by destruct (existsb (Db.has_username u) (users w)).
Qed.

Lemma upload_session request w :
  session (upload request w).2 = session w.
Proof.
  destruct (current_user w) as [user|] eqn:Huser.
  2:{ by rewrite (upload_gate_closed request w Huser). }
  destruct (req_method request) eqn:Hm.
  { unfold upload, login_required. unfold_M. by rewrite Huser, Hm. }
  destruct (files request !! "image") as [file|] eqn:Hfile.
  2:{ unfold upload, login_required. unfold_M.
      by rewrite Huser, Hm, Hfile. }
  destruct (decide (FileStorage.filename file = "")) as [Hempty|Hne].
  { by rewrite (upload_empty_name request w user file). }
  destruct (allowed_file (FileStorage.filename file)) eqn:Hallowed.
  2:{ by rewrite (upload_disallowed request w file user). }
  rewrite (upload_accepted request w file user) by done. cbv zeta.
  destruct (after_writes_frame file w) as (_ & _ & Hs & _).
  destruct (slug_in_use _ _); [done|].
  by destruct (slug_taken _ _).
Qed.

(** The effect of any request on the tables and the session. *)
Lemma dispatch_tables r w :
  let w' := (dispatch r w).2 in
  (keeps_tables w w' ∨ adds_user w w' ∨ adds_image w w')
  ∧ (session w' = session w ∨ session w' = None
     ∨ ∃ user, user ∈ users w ∧ session w' = Some (User.id user)).
Proof.
  cbv zeta. destruct r; cbn [dispatch].
  - destruct (reads_keep_world GetIndex w) as [resp Hr]. cbn [dispatch] in Hr.
    rewrite Hr. split; [by left|by left].
  - split; [|left; apply register_session].
    destruct (register_tables request w); auto.
  - destruct (login_tables request w) as [Ht Hs]. split; [by left|].
    destruct Hs as [Hs | Hs]; auto.
  - destruct (logout_tables w) as [Ht Hs]. split; [by left|].
    destruct Hs as [Hs | Hs]; auto.
  - split; [|left; apply upload_session].
    destruct (upload_tables request w); auto.
  - destruct (reads_keep_world (GetImageBySlug custom_slug) w) as [resp Hr].
    cbn [dispatch] in Hr. rewrite Hr. split; [by left|by left].
  - destruct (reads_keep_world (GetUploadedFile filename) w) as [resp Hr].
    cbn [dispatch] in Hr. rewrite Hr. split; [by left|by left].
  - destruct (reads_keep_world (GetImageDetail image_id) w) as [resp Hr].
    cbn [dispatch] in Hr. rewrite Hr. split; [by left|by left].
Qed.

Lemma next_id_fresh (ids : list nat) : Db.next_id ids ∉ ids.
Proof. intros Hin. apply next_id_above in Hin. lia. Qed.

Lemma slug_free_not_held s (l : list ImageModel.t) :
  existsb (Db.has_slug s) l = false → s ∉ omap ImageModel.custom_slug l.
Proof.
  induction l as [|x l IH]; simpl.
  - intros _. apply not_elem_of_nil.
  - intros [Hx Hl]%orb_false_iff. unfold Db.has_slug in Hx.
    apply bool_decide_eq_false_1 in Hx.
    destruct (ImageModel.custom_slug x) as [s'|]; simpl; [|by apply IH].
    apply not_elem_of_cons. split; [congruence|by apply IH].
Qed.

Lemma tables_grow w w' :
  keeps_tables w w' ∨ adds_user w w' ∨ adds_image w w' →
  users w `prefix_of` users w' ∧ images w `prefix_of` images w'.
Proof.
  intros [[Hu Hi] | [[Hi (row & Hu & _)] | [Hu (row & user & Hi & _)]]];
    rewrite ?Hu, ?Hi; split; try done; by eexists.
Qed.

Lemma store_ok_keeps w w' :
  keeps_tables w w' → store_ok w → store_ok w'.
Proof.
  intros [Hu Hi] [H1 H2 H3 H4 H5].
  split; rewrite ?Hu, ?Hi; try done.
Qed.

Lemma store_ok_adds_user w w' :
  adds_user w w' → store_ok w → store_ok w'.
Proof.
  intros [Hi (row & Hu & Hid & Hname)] [H1 H2 H3 H4 H5].
  split; rewrite ?Hu, ?Hi; try done.
  - rewrite fmap_app. apply NoDup_app. split; [done|].
    split; [|apply NoDup_singleton].
    intros x Hx ->%list_elem_of_singleton. done.
  - rewrite fmap_app. apply NoDup_app. split; [done|].
    split; [|apply NoDup_singleton].
    intros x Hx ->%list_elem_of_singleton. simpl in Hx.
    rewrite Hid in Hx. by apply next_id_fresh in Hx.
  - intros img Himg. destruct (H5 img Himg) as (user & Hin & Heq).
    exists user. split; [|done]. apply elem_of_app. by left.
Qed.

Lemma store_ok_adds_image w w' :
  adds_image w w' → store_ok w → store_ok w'.
Proof.
  intros [Hu (row & user & Hi & Hid & Hslug & Hin & Huid)] [H1 H2 H3 H4 H5].
  split; rewrite ?Hu, ?Hi; try done.
  - rewrite fmap_app. apply NoDup_app. split; [done|].
    split; [|apply NoDup_singleton].
    intros x Hx ->%list_elem_of_singleton. simpl in Hx.
    rewrite Hid in Hx. by apply next_id_fresh in Hx.
  - rewrite omap_app. apply NoDup_app. split; [done|].
    simpl. unfold slug_taken in Hslug.
    destruct (ImageModel.custom_slug row) as [s|]; simpl.
    + split; [|apply NoDup_singleton].
      intros x Hx ->%list_elem_of_singleton.
      by apply slug_free_not_held in Hslug.
    + split; [|apply NoDup_nil_2]. by intros x _ ?%elem_of_nil.
  - intros img [Himg | ->%list_elem_of_singleton]%elem_of_app.
    + apply H5, Himg.
    + by exists user.
Qed.

Lemma dispatch_keeps_ok r w :
  store_ok w → session_ok w →
  store_ok (dispatch r w).2 ∧ session_ok (dispatch r w).2.
Proof.
  intros Hok Hs.
  destruct (dispatch_tables r w) as [Ht Hsess]. cbv zeta in *.
  destruct (tables_grow _ _ Ht) as [[k Hk] _].
  split.
  - destruct Ht as [Ht | [Ht | Ht]].
    + by apply (store_ok_keeps w).
    + by apply (store_ok_adds_user w).
    + by apply (store_ok_adds_image w).
  - intros uid Huid. rewrite Hk, fmap_app. apply elem_of_app. left.
    destruct Hsess as [Heq | [Hnone | (user & Hin & Heq)]].
    + apply Hs. by rewrite <- Heq.
    + congruence.
    + rewrite Heq in Huid. injection Huid as <-.
      by apply list_elem_of_fmap_2.
Qed.

(** Every request keeps the constraints of the schema and the validity of
    the session: if user names, primary keys and non-null slugs are unique,
    every image has a registered uploader and the logged-in user is
    registered, the same holds after the request, whatever the request and
    however it ends. *)
Theorem request_keeps_store r w :
  store_ok w → session_ok w →
  store_ok (dispatch r w).2 ∧ session_ok (dispatch r w).2.
Proof. apply dispatch_keeps_ok. Qed.

Lemma serve_snoc rs r w :
  serve (rs ++ [r]) w = (dispatch r (serve rs w)).2.
Proof. unfold serve. by rewrite foldl_app. Qed.

(** Started on empty tables, the application never reaches a state that
    breaks the constraints: after any sequence of requests user names,
    primary keys and non-null slugs are unique, every image has a
    registered uploader, and the logged-in user, if any, is registered. *)
Theorem reachable_store_ok rs :
  store_ok (serve rs initial_world) ∧ session_ok (serve rs initial_world).
Proof.
  induction rs as [|r rs IH] using rev_ind.
  - split.
    + split; simpl; try apply NoDup_nil_2. by intros img ?%elem_of_nil.
    + by intros uid.
  - rewrite serve_snoc. destruct IH as [Hok Hs].
    by apply dispatch_keeps_ok.
Qed.

(** No request deletes or rewrites a row: after any sequence of requests
    the users and the images that were stored are still there, unchanged
    and in the same order, followed by the new ones. *)
Theorem tables_append_only rs w :
  users w `prefix_of` users (serve rs w)
  ∧ images w `prefix_of` images (serve rs w).
Proof.
  induction rs as [|r rs IH] using rev_ind; [done|].
  rewrite serve_snoc. destruct IH as [IHu IHi].
  destruct (dispatch_tables r (serve rs w)) as [Ht _]. cbv zeta in Ht.
  destruct (tables_grow _ _ Ht) as [Hu Hi].
  split; by etrans.
Qed.






End Invariants.


(** A run of [request_keeps_store]: a registration on [alice]'s store. *)
Lemma request_keeps_store_witness :
  let r := AtRegister (Sample.post_credentials "bob" "builder" "s1") in
  store_ok (dispatch r Sample.w_alice).2
  ∧ session_ok (dispatch r Sample.w_alice).2.
Proof.
  apply (request_keeps_store
           (AtRegister (Sample.post_credentials "bob" "builder" "s1"))
           Sample.w_alice).
  - split; simpl; try (apply NoDup_singleton); try apply NoDup_nil_2.
    by intros img ?%elem_of_nil.
  - intros uid [= <-]. apply list_elem_of_here.
Defined.
